(** * ecs-task: launching one ECS task and waiting for it

    A shallow embedding of [pkg/task/task.go]: the constructor [NewTask],
    the launch request built by [RunTask], the handling of the service's
    answer, and the polling loop of [WaitTask] / [waitExitTasks] with its
    two helpers [checkTaskStopped] and [checkTaskSucceeded].

    Conventions of the embedding.
    - A Go [string] is a [string]; a slice is a [list]; [int32] is a [Z]
      (the code only compares and prints exit codes).
    - An optional scalar of an SDK shape ([*string], [*int32]) is an
      [option]; dereferencing [nil] is the outcome [Panic].
    - A Go [error] is an [option error]: [None] is [nil].
    - Calls to collaborators (AWS client, configuration loader, timers) are
      recorded in a trace of [effect]s; logging is not modelled. *)

From Stdlib Require Import List String Ascii Bool ZArith Lia.
From Stdlib Require Import DecimalString DecimalZ.
Import ListNotations.

Local Open Scope string_scope.
Local Open Scope Z_scope.

(** ** Go values *)

(** Error values.  [errors_New msg] stands for a value made by
    [errors.New] / [errors.Errorf] (identified by its message),
    [errors_Wrap] for [errors.Wrap], the two [context_] constructors for the
    sentinel values of package [context], and [external] for an error
    produced by a collaborator. *)
Inductive error : Type :=
| errors_New (msg : string)
| errors_Wrap (cause : error) (msg : string)
| context_DeadlineExceeded
| context_Canceled
| external (msg : string).

(** [err == context.DeadlineExceeded]: identity with the sentinel. *)
Definition is_DeadlineExceeded (e : option error) : bool :=
  match e with
  | Some context_DeadlineExceeded => true
  | _ => false
  end.

(** The outcome of running code that may dereference a nil pointer. *)
Inductive outcome (A : Type) : Type :=
| Ret (a : A)
| Panic.
Arguments Ret {A} a.
Arguments Panic {A}.

Definition bind {A B : Type} (m : outcome A) (k : A -> outcome B) : outcome B :=
  match m with
  | Ret a => k a
  | Panic => Panic
  end.

Notation "x <- m ;; k" := (bind m (fun x => k))
  (at level 61, m at next level, right associativity).

(** [*p] for a pointer to a scalar. *)
Definition deref {A : Type} (p : option A) : outcome A :=
  match p with
  | Some a => Ret a
  | None => Panic
  end.

(** [len(s) > 0] on a string. *)
Definition nonEmpty (s : string) : bool := negb (String.length s =? 0)%nat.

(** [%d] / [%v] of an integer. *)
Definition fmt_int (z : Z) : string := NilZero.string_of_int (Z.to_int z).

(** [5 * time.Second], in nanoseconds as [time.Duration] counts them. *)
Definition time_Second : Z := 1000000000.
Definition pollInterval : Z := 5 * time_Second.

(** ** Shapes of the AWS SDK used by the code *)

Module ecstypes.

Inductive LaunchType : Type := LaunchTypeEc2 | LaunchTypeFargate.
Inductive AssignPublicIp : Type := AssignPublicIpEnabled | AssignPublicIpDisabled.

Record ContainerOverride : Type := {
  Command : list string;
  Name : option string
}.

Record TaskOverride : Type := {
  ContainerOverrides : list ContainerOverride;
  Cpu : option string;
  Memory : option string
}.

Record AwsVpcConfiguration : Type := {
  AssignPublicIp_ : AssignPublicIp;
  Subnets : list string;
  SecurityGroups : list string
}.

Record NetworkConfiguration : Type := {
  AwsvpcConfiguration : option AwsVpcConfiguration
}.

Record TaskDefinition : Type := {
  TaskDefinitionArn : option string
}.

(** A container of a described task.  The code reads [Name] and
    [ExitCode]; [LastStatus] is the container's own lifecycle state. *)
Record Container : Type := {
  ContainerName : option string;
  ContainerLastStatus : option string;
  ExitCode : option Z
}.

(** A described task: its ARN, the task's lifecycle state and its
    containers in the order the service lists them. *)
Record Task : Type := {
  TaskArn : option string;
  LastStatus : option string;
  Containers : list Container
}.

Record Failure : Type := {
  Arn : option string;
  Detail : option string;
  Reason : option string
}.

End ecstypes.

Module ecs.

Record RunTaskInput : Type := {
  Cluster : option string;
  TaskDefinition : option string;
  Overrides : option ecstypes.TaskOverride;
  NetworkConfiguration : option ecstypes.NetworkConfiguration;
  LaunchType : ecstypes.LaunchType;
  PlatformVersion : option string
}.

Record RunTaskOutput : Type := {
  Failures : list ecstypes.Failure;
  Tasks : list ecstypes.Task
}.

Record DescribeTasksInput : Type := {
  DescribeCluster : option string;
  DescribeTasks : list string
}.

Record DescribeTasksOutput : Type := {
  DescribedTasks : list ecstypes.Task
}.

End ecs.

(** Handles created by [NewTask]; each is determined by what it was made
    from. *)
Record awsConfig : Type := { cfgProfile : string; cfgRegion : string }.
Inductive ECSClient : Type := ecs_NewFromConfig (cfg : awsConfig).
Inductive LogsClient : Type := cloudwatchlogs_NewFromConfig (cfg : awsConfig).
Inductive TaskDefinitionClient : Type := NewTaskDefinition (awsECS : ECSClient).

(** ** The [Task] struct *)

Record Task : Type := {
  awsECS : ECSClient;
  awsLogs : LogsClient;
  Cluster : string;
  Container : string;
  TaskDefinitionName : string;
  taskDefinition : TaskDefinitionClient;
  Command : list string;
  Timeout : Z;
  LaunchType : ecstypes.LaunchType;
  Subnets : list string;
  SecurityGroups : list string;
  PlatformVersion : string;
  AssignPublicIP : ecstypes.AssignPublicIp;
  profile : string;
  region : string;
  timestampFormat : string;
  taskSizeCpu : string;
  taskSizeMemory : string
}.

(** Calls that leave the process. *)
Inductive effect : Type :=
| CallNewConfig (profile region : string)
| CallRunTask (params : ecs.RunTaskInput)
| Select (timer : Z)
| CallDescribeTasks (params : ecs.DescribeTasksInput).

(** ** [NewTask] *)

(** [strings.Split(s, ",")]: the pieces of [s] between commas; a string
    without a comma (the empty one too) is its own single piece. *)
Fixpoint strings_Split_comma (s : string) : list string :=
  match s with
  | EmptyString => [EmptyString]
  | String c rest =>
      if Ascii.eqb c ","%char then EmptyString :: strings_Split_comma rest
      else match strings_Split_comma rest with
           | [] => [String c EmptyString]
           | piece :: pieces => String c piece :: pieces
           end
  end.

(** The two loops of [NewTask] that keep the non-empty pieces. *)
Definition nonEmptyPieces (ids : string) : list string :=
  filter nonEmpty (strings_Split_comma ids).

Section Construction.

(** [newConfig] lives in another file of the package and
    [shellwords.Parser.Parse] in a library: both are parameters. *)
Variable newConfig : string -> string -> awsConfig + error.
Variable shellwords_Parse : string -> list string + error.

Definition NewTask (cluster container taskDefinitionName command : string)
    (fargate : bool) (subnetIDs securityGroupIDs platformVersion : string)
    (timeout : Z) (timestampFormat profile region taskSizeCpu taskSizeMemory : string)
    : list effect * (Task + error) :=
  if (cluster =? "")%string then ([], inr (errors_New "Cluster name is required"))
  else if (container =? "")%string then ([], inr (errors_New "Container name is required"))
  else if (taskDefinitionName =? "")%string then ([], inr (errors_New "Task definition is required"))
  else if (command =? "")%string then ([], inr (errors_New "Command is required"))
  else
    let trace := [CallNewConfig profile region] in
    match newConfig profile region with
    | inr err => (trace, inr (errors_Wrap err "Failed to create AWS Session"))
    | inl cfg =>
        let awsECS := ecs_NewFromConfig cfg in
        let awsLogs := cloudwatchlogs_NewFromConfig cfg in
        let taskDefinition := NewTaskDefinition awsECS in
        match shellwords_Parse command with
        | inr err => (trace, inr (errors_Wrap err "Parse error"))
        | inl commands =>
            let launchType :=
              if fargate then ecstypes.LaunchTypeFargate else ecstypes.LaunchTypeEc2 in
            let assignPublicIP :=
              if fargate then ecstypes.AssignPublicIpEnabled
              else ecstypes.AssignPublicIpDisabled in
            let subnets := nonEmptyPieces subnetIDs in
            let securityGroups := nonEmptyPieces securityGroupIDs in
            (trace,
             inl {| awsECS := awsECS;
                    awsLogs := awsLogs;
                    Cluster := cluster;
                    Container := container;
                    TaskDefinitionName := taskDefinitionName;
                    taskDefinition := taskDefinition;
                    Command := commands;
                    Timeout := timeout;
                    LaunchType := launchType;
                    Subnets := subnets;
                    SecurityGroups := securityGroups;
                    AssignPublicIP := assignPublicIP;
                    profile := profile;
                    region := region;
                    timestampFormat := timestampFormat;
                    PlatformVersion := platformVersion;
                    taskSizeCpu := taskSizeCpu;
                    taskSizeMemory := taskSizeMemory |})
        end
    end.

End Construction.

(** ** [RunTask] *)

(** Lines 185-199: the override of the target container's command, with
    the task-level CPU and memory when both sizes are given. *)
Definition taskOverride (t : Task) : ecstypes.TaskOverride :=
  let containerOverride :=
    {| ecstypes.Command := Command t; ecstypes.Name := Some (Container t) |} in
  if nonEmpty (taskSizeCpu t) && nonEmpty (taskSizeMemory t) then
    {| ecstypes.ContainerOverrides := [containerOverride];
       ecstypes.Cpu := Some (taskSizeCpu t);
       ecstypes.Memory := Some (taskSizeMemory t) |}
  else
    {| ecstypes.ContainerOverrides := [containerOverride];
       ecstypes.Cpu := None;
       ecstypes.Memory := None |}.

(** Lines 201-236: the request handed to the client. *)
Definition runTaskInput (t : Task) (taskDefinition : ecstypes.TaskDefinition)
    : ecs.RunTaskInput :=
  let override := taskOverride t in
  if (0 <? List.length (Subnets t))%nat then
    let vpcConfiguration :=
      {| ecstypes.AssignPublicIp_ := AssignPublicIP t;
         ecstypes.Subnets := Subnets t;
         ecstypes.SecurityGroups := SecurityGroups t |} in
    let network := {| ecstypes.AwsvpcConfiguration := Some vpcConfiguration |} in
    if nonEmpty (PlatformVersion t) then
      {| ecs.Cluster := Some (Cluster t);
         ecs.TaskDefinition := ecstypes.TaskDefinitionArn taskDefinition;
         ecs.Overrides := Some override;
         ecs.NetworkConfiguration := Some network;
         ecs.LaunchType := LaunchType t;
         ecs.PlatformVersion := Some (PlatformVersion t) |}
    else
      {| ecs.Cluster := Some (Cluster t);
         ecs.TaskDefinition := ecstypes.TaskDefinitionArn taskDefinition;
         ecs.Overrides := Some override;
         ecs.NetworkConfiguration := Some network;
         ecs.LaunchType := LaunchType t;
         ecs.PlatformVersion := None |}
  else
    {| ecs.Cluster := Some (Cluster t);
       ecs.TaskDefinition := ecstypes.TaskDefinitionArn taskDefinition;
       ecs.Overrides := Some override;
       ecs.NetworkConfiguration := None;
       ecs.LaunchType := LaunchType t;
       ecs.PlatformVersion := None |}.

Section Submission.

(** The client's [RunTask] operation, and the [%+v] rendering of a slice
    of tasks (it prints addresses, so it is left abstract). *)
Variable api_RunTask : ecs.RunTaskInput -> ecs.RunTaskOutput + error.
Variable fmt_tasks : list ecstypes.Task -> string.

Definition unexpectedCount (tasks : list ecstypes.Task) : error :=
  errors_New ("Expected ecs.RunTask with Count=nil to return exactly 1 task; received "
              ++ fmt_int (Z.of_nat (List.length tasks))
              ++ " (" ++ fmt_tasks tasks ++ ")").

(** Lines 238-252: what [RunTask] makes of the service's answer. *)
Definition handleRunTaskOutput (reply : ecs.RunTaskOutput + error)
    : outcome (ecstypes.Task + error) :=
  match reply with
  | inr err => Ret (inr err)
  | inl resp =>
      match ecs.Failures resp with
      | failure :: _ =>
          reason <- deref (ecstypes.Reason failure) ;;
          Ret (inr (errors_New reason))
      | [] =>
          match ecs.Tasks resp with
          | [task] => Ret (inl task)
          | tasks => Ret (inr (unexpectedCount tasks))
          end
      end
  end.

Definition RunTask (t : Task) (taskDefinition : ecstypes.TaskDefinition)
    : list effect * outcome (ecstypes.Task + error) :=
  let params := runTaskInput t taskDefinition in
  ([CallRunTask params], handleRunTaskOutput (api_RunTask params)).

End Submission.

(** ** [checkTaskStopped] and [checkTaskSucceeded] *)

Definition checkTaskStopped (t : Task) (task : ecstypes.Task) : outcome bool :=
  status <- deref (ecstypes.LastStatus task) ;;
  if negb (status =? "STOPPED")%string then Ret false else Ret true.

(** [checkTaskSucceeded] keeps [&c], the address of the variable of its
    [range] loop.  Go gives the loop one variable for all iterations up to
    language version 1.21 and a fresh one per iteration from 1.22 on; the
    memory that holds the variable is modelled for both. *)
Inductive loopVariable : Type := PerLoop | PerIteration.

(** The cells that have held [c] so far, and where the next value of [c]
    goes: over the single cell, or into a new one. *)
Definition assignLoopVariable (sem : loopVariable)
    (cells : list ecstypes.Container) (c : ecstypes.Container)
    : list ecstypes.Container * nat :=
  match sem with
  | PerLoop => ([c], 0%nat)
  | PerIteration => ((cells ++ [c])%list, List.length cells)
  end.

(** Lines 312-317: the scan; [targetContainer] is an address or nil. *)
Fixpoint scanContainers (sem : loopVariable) (name : string)
    (containers : list ecstypes.Container)
    (cells : list ecstypes.Container) (targetContainer : option nat)
    : outcome (list ecstypes.Container * option nat) :=
  match containers with
  | [] => Ret (cells, targetContainer)
  | x :: rest =>
      let '(cells', addr_c) := assignLoopVariable sem cells x in
      n <- deref (ecstypes.ContainerName x) ;;
      scanContainers sem name rest cells'
        (if (n =? name)%string then Some addr_c else targetContainer)
  end.

(** The container [targetContainer] points to once the scan is over. *)
Definition lookupTarget (sem : loopVariable) (name : string)
    (containers : list ecstypes.Container) : outcome (option ecstypes.Container) :=
  r <- scanContainers sem name containers [] None ;;
  match snd r with
  | None => Ret None
  | Some addr => c <- deref (nth_error (fst r) addr) ;; Ret (Some c)
  end.

Definition checkTaskSucceeded (sem : loopVariable) (t : Task) (task : ecstypes.Task)
    : outcome (Z * bool * option error) :=
  targetContainer <- lookupTarget sem (Container t) (ecstypes.Containers task) ;;
  match targetContainer with
  | None => Ret (1, false, Some (errors_New "can not find target container"))
  | Some c =>
      match ecstypes.ExitCode c with
      | None => Ret (1, false, Some (errors_New "can not read exit code"))
      | Some code =>
          if negb (code =? 0) then Ret (code, false, None)
          else Ret (0, true, None)
      end
  end.

(** Modelled from the spec: the language version the module is built with
    (its [go.mod] is not among the sources).  The spec describes the target
    lookup as a reference into a loop-local copy with the last match
    winning, which is the per-iteration variable of Go 1.22 and later. *)
Definition goLoopVariable : loopVariable := PerIteration.

(** ** [waitExitTasks] and [WaitTask] *)

(** Why [ctx.Done()] fired, and the [ctx.Err()] that goes with it. *)
Inductive doneReason : Type := deadlineElapsed | callerCancelled.

Definition ctx_Err (r : doneReason) : error :=
  match r with
  | deadlineElapsed => context_DeadlineExceeded
  | callerCancelled => context_Canceled
  end.

(** Which case of the [select] fires in an iteration. *)
Inductive selectCase : Type :=
| ctxDone (r : doneReason)
| timeAfter.

(** One turn of the world around the loop: the case the [select] takes,
    and what the service answers to [DescribeTasks] at that moment (asked
    or not). *)
Record tick : Type := {
  fired : selectCase;
  answer : ecs.DescribeTasksOutput + error
}.

(** What one pass over the loop body decides. *)
Inductive verdict : Type :=
| continueRetry
| returns (err : option error).

(** Where a run of the loop stands when the ticks are used up. *)
Inductive status : Type :=
| Returned (err : option error)
| Panicked
| Polling.

(** [errors.Errorf("exit code: %v", code)]. *)
Definition exitCodeError (code : Z) : error :=
  errors_New ("exit code: " ++ fmt_int code).

(** Lines 285-289. *)
Fixpoint stoppedLoop (t : Task) (tasks : list ecstypes.Task) : outcome bool :=
  match tasks with
  | [] => Ret true
  | task :: rest =>
      stopped <- checkTaskStopped t task ;;
      if negb stopped then Ret false else stoppedLoop t rest
  end.

(** Lines 291-300. *)
Fixpoint succeededLoop (sem : loopVariable) (t : Task) (tasks : list ecstypes.Task)
    : outcome verdict :=
  match tasks with
  | [] => Ret (returns None)
  | task :: rest =>
      r <- checkTaskSucceeded sem t task ;;
      let '(code, result, err) := r in
      match err with
      | Some _ => Ret continueRetry
      | None =>
          if negb result then Ret (returns (Some (exitCodeError code)))
          else succeededLoop sem t rest
      end
  end.

(** The loop body after a successful fetch. *)
Definition evaluate (sem : loopVariable) (t : Task) (resp : ecs.DescribeTasksOutput)
    : outcome verdict :=
  allStopped <- stoppedLoop t (ecs.DescribedTasks resp) ;;
  if negb allStopped then Ret continueRetry
  else succeededLoop sem t (ecs.DescribedTasks resp).

Definition describeTasksInput (t : Task) (taskArn : string) : ecs.DescribeTasksInput :=
  {| ecs.DescribeCluster := Some (Cluster t); ecs.DescribeTasks := [taskArn] |}.

(** One iteration: the effects it performs and its verdict. *)
Definition iteration (sem : loopVariable) (t : Task) (taskArn : string) (w : tick)
    : list effect * outcome verdict :=
  match fired w with
  | ctxDone r => ([Select pollInterval], Ret (returns (Some (ctx_Err r))))
  | timeAfter =>
      ([Select pollInterval; CallDescribeTasks (describeTasksInput t taskArn)],
       match answer w with
       | inr err => Ret (returns (Some err))
       | inl resp => evaluate sem t resp
       end)
  end.

Fixpoint waitExitTasks (sem : loopVariable) (t : Task) (taskArn : string)
    (world : list tick) : list effect * status :=
  match world with
  | [] => ([], Polling)
  | w :: later =>
      let '(effects, v) := iteration sem t taskArn w in
      match v with
      | Panic => (effects, Panicked)
      | Ret (returns err) => (effects, Returned err)
      | Ret continueRetry =>
          let '(effects', s) := waitExitTasks sem t taskArn later in
          ((effects ++ effects')%list, s)
      end
  end.

Definition WaitTask (sem : loopVariable) (t : Task) (task : ecstypes.Task)
    (world : list tick) : list effect * status :=
  match ecstypes.TaskArn task with
  | None => ([], Panicked)
  | Some taskArn =>
      let '(effects, s) := waitExitTasks sem t taskArn world in
      (effects,
       match s with
       | Returned err =>
           if is_DeadlineExceeded err then Returned (Some (errors_New "process timeout"))
           else Returned err
       | _ => s
       end)
  end.

(** ** The spec's view of the result *)

(** The terminal results the spec names, and the Go value by which
    [WaitTask] reports each. *)
Inductive ExecutionResult : Type :=
| Succeeded
| Failed (exitCode : Z)
| TimedOut
| Error (cause : error).

Definition reportedAs (r : ExecutionResult) : option error :=
  match r with
  | Succeeded => None
  | Failed exitCode => Some (exitCodeError exitCode)
  | TimedOut => Some (errors_New "process timeout")
  | Error cause => Some cause
  end.

(** ** Vocabulary of the statements *)

(** The task's own lifecycle state is "STOPPED" / is present at all. *)
Definition taskStopped (task : ecstypes.Task) : Prop :=
  ecstypes.LastStatus task = Some "STOPPED".

Definition hasStatus (task : ecstypes.Task) : Prop :=
  ecstypes.LastStatus task <> None.

(** The container's own lifecycle state is "STOPPED". *)
Definition containerStopped (c : ecstypes.Container) : Prop :=
  ecstypes.ContainerLastStatus c = Some "STOPPED".

(** The container carries a name / carries this name. *)
Definition named (c : ecstypes.Container) : Prop :=
  ecstypes.ContainerName c <> None.

Definition hasName (name : string) (c : ecstypes.Container) : Prop :=
  ecstypes.ContainerName c = Some name.

(** What an iteration that fetches does: wait on the timer, then ask. *)
Definition pollEffects (t : Task) (taskArn : string) : list effect :=
  [Select pollInterval; CallDescribeTasks (describeTasksInput t taskArn)].

(** [n] fetching iterations in a row. *)
Definition pollRounds (t : Task) (taskArn : string) (n : nat) : list effect :=
  List.concat (repeat (pollEffects t taskArn) n).

(** The tick makes the loop go round again: no result, no error. *)
Definition continues (sem : loopVariable) (t : Task) (taskArn : string) (w : tick) : Prop :=
  snd (iteration sem t taskArn w) = Ret continueRetry.

(** The shape of every trace of the loop: each fetch comes right after a
    wait on the poll timer, and a wait that ends through [ctx.Done()] is
    the last thing that happens. *)
Inductive polled : list effect -> Prop :=
| polled_nil : polled []
| polled_done : polled [Select pollInterval]
| polled_fetch (params : ecs.DescribeTasksInput) (rest : list effect) :
    polled rest -> polled (Select pollInterval :: CallDescribeTasks params :: rest).

(** ** Sample values *)

Definition sampleTask : Task :=
  {| awsECS := ecs_NewFromConfig {| cfgProfile := "default"; cfgRegion := "ap-northeast-1" |};
     awsLogs := cloudwatchlogs_NewFromConfig
                  {| cfgProfile := "default"; cfgRegion := "ap-northeast-1" |};
     Cluster := "prod";
     Container := "app";
     TaskDefinitionName := "migrate";
     taskDefinition :=
       NewTaskDefinition
         (ecs_NewFromConfig {| cfgProfile := "default"; cfgRegion := "ap-northeast-1" |});
     Command := ["rake"; "db:migrate"];
     Timeout := 0;
     LaunchType := ecstypes.LaunchTypeEc2;
     Subnets := [];
     SecurityGroups := [];
     PlatformVersion := "";
     AssignPublicIP := ecstypes.AssignPublicIpDisabled;
     profile := "default";
     region := "ap-northeast-1";
     timestampFormat := "";
     taskSizeCpu := "";
     taskSizeMemory := "" |}.

Definition sampleArn : string := "arn:aws:ecs:task/prod/1".

Definition container (name lastStatus : string) (exitCode : option Z)
    : ecstypes.Container :=
  {| ecstypes.ContainerName := Some name;
     ecstypes.ContainerLastStatus := Some lastStatus;
     ecstypes.ExitCode := exitCode |}.

Definition described (lastStatus : string) (containers : list ecstypes.Container)
    : ecstypes.Task :=
  {| ecstypes.TaskArn := Some sampleArn;
     ecstypes.LastStatus := Some lastStatus;
     ecstypes.Containers := containers |}.

(** The timer fires and the service describes this one task. *)
Definition fetched (task : ecstypes.Task) : tick :=
  {| fired := timeAfter; answer := inl {| ecs.DescribedTasks := [task] |} |}.

(** [ctx.Done()] fires; the service would have described this task. *)
Definition interrupted (r : doneReason) (task : ecstypes.Task) : tick :=
  {| fired := ctxDone r; answer := inl {| ecs.DescribedTasks := [task] |} |}.

(** Described tasks used in the examples. *)
Definition runningTask : ecstypes.Task :=
  described "RUNNING" [container "app" "RUNNING" None].

Definition deprovisioningTask : ecstypes.Task :=
  described "DEPROVISIONING" [container "app" "STOPPED" (Some 0)].

Definition succeededTask : ecstypes.Task :=
  described "STOPPED" [container "app" "STOPPED" (Some 0)].

Definition stoppedWithRunningSidecar : ecstypes.Task :=
  described "STOPPED" [container "app" "STOPPED" (Some 0);
                       container "sidecar" "RUNNING" None].

Definition failedWithRunningSidecar : ecstypes.Task :=
  described "STOPPED" [container "app" "STOPPED" (Some 7);
                       container "sidecar" "RUNNING" None].

Definition exitCodeAbsent : ecstypes.Task :=
  described "STOPPED" [container "app" "STOPPED" None].

Definition duplicateNames : ecstypes.Task :=
  described "STOPPED" [container "app" "STOPPED" (Some 0);
                       container "app" "STOPPED" (Some 7);
                       container "sidecar" "STOPPED" (Some 0)].

(** A failure entry without a reason, and the answer that carries it. *)
Definition failureWithoutReason : ecstypes.Failure :=
  {| ecstypes.Arn := Some "arn:aws:ecs:container-instance/1";
     ecstypes.Detail := None;
     ecstypes.Reason := None |}.

Definition answerWithoutReason : ecs.RunTaskOutput :=
  {| ecs.Failures := [failureWithoutReason]; ecs.Tasks := [] |}.

(** ** Vocabulary for the construction and the request *)

(** The string holds a comma. *)
Fixpoint containsComma (s : string) : bool :=
  match s with
  | EmptyString => false
  | String c rest => Ascii.eqb c ","%char || containsComma rest
  end.

(** A well-formed identifier of a list: not empty, no comma. *)
Definition identifier (s : string) : Prop :=
  nonEmpty s = true /\ containsComma s = false.

(** [strings.Join(ids, ",")]. *)
Definition strings_Join_comma (ids : list string) : string := String.concat "," ids.

(** The container bears no name at all. *)
Definition unnamed (c : ecstypes.Container) : Prop :=
  ecstypes.ContainerName c = None.

(** The effect is one the polling loop of this task and ARN may perform. *)
Definition pollingEffect (t : Task) (taskArn : string) (e : effect) : Prop :=
  e = Select pollInterval \/ e = CallDescribeTasks (describeTasksInput t taskArn).

(** Collaborators that always succeed, for the examples. *)
Definition sampleNewConfig (profile region : string) : awsConfig + error :=
  inl {| cfgProfile := profile; cfgRegion := region |}.

Definition sampleParse (command : string) : list string + error := inl [command].

Definition sampleDefinition : ecstypes.TaskDefinition :=
  {| ecstypes.TaskDefinitionArn := Some "arn:aws:ecs:task-definition/migrate:1" |}.

(** A described task without a lifecycle state, one whose sidecar has no
    name, and one that ran a sidecar to exit code 137 after the target. *)
Definition statusAbsent : ecstypes.Task :=
  {| ecstypes.TaskArn := Some sampleArn;
     ecstypes.LastStatus := None;
     ecstypes.Containers := [container "app" "STOPPED" (Some 0)] |}.

Definition sidecarUnnamed : ecstypes.Task :=
  described "STOPPED"
    [container "app" "STOPPED" (Some 0);
     {| ecstypes.ContainerName := None;
        ecstypes.ContainerLastStatus := Some "STOPPED";
        ecstypes.ExitCode := Some 0 |}].

Definition sidecarKilled : ecstypes.Task :=
  described "STOPPED" [container "app" "STOPPED" (Some 0);
                       container "sidecar" "STOPPED" (Some 137)].

Definition failedTask : ecstypes.Task :=
  described "STOPPED" [container "app" "STOPPED" (Some 7)].

(** * Properties *)

(** ** Strings, formatting and error values *)

Lemma nonEmpty_true (s : string) : nonEmpty s = true <-> s <> "".
Proof.
  destruct s as [|c s]; cbn; split; intro H; congruence.
Qed.

Lemma nonEmpty_false (s : string) : nonEmpty s = false <-> s = "".
Proof.
  destruct s as [|c s]; cbn; split; intro H; congruence.
Qed.

Lemma to_int_not_nil (z : Z) : Z.to_int z <> Decimal.Pos Decimal.Nil /\
                               Z.to_int z <> Decimal.Neg Decimal.Nil.
Proof.
  destruct z as [|p|p]; cbn; split; try discriminate;
    intros [= H]; revert H; apply DecimalPos.Unsigned.to_uint_nonnil.
Qed.

Lemma fmt_int_inj (a b : Z) : fmt_int a = fmt_int b -> a = b.
Proof.
  unfold fmt_int. intros H.
  apply DecimalZ.to_int_inj.
  destruct (to_int_not_nil a) as [Ha1 Ha2], (to_int_not_nil b) as [Hb1 Hb2].
  pose proof (NilZero.isi _ Ha1 Ha2) as Pa.
  pose proof (NilZero.isi _ Hb1 Hb2) as Pb.
  rewrite H in Pa. congruence.
Qed.

Lemma exitCodeError_inj (a b : Z) : exitCodeError a = exitCodeError b -> a = b.
Proof.
  unfold exitCodeError. intros [= H]. now apply fmt_int_inj.
Qed.

(** The Go values of distinct conclusive results differ. *)
Lemma reportedAs_Failed_inj (a b : Z) :
  reportedAs (Failed a) = reportedAs (Failed b) -> a = b.
Proof.
  intros H. apply exitCodeError_inj. unfold reportedAs in H. congruence.
Qed.

Lemma TimedOut_not_Failed (code : Z) : reportedAs TimedOut <> reportedAs (Failed code).
Proof. cbn. unfold exitCodeError. cbn. discriminate. Qed.

Lemma TimedOut_not_Succeeded : reportedAs TimedOut <> reportedAs Succeeded.
Proof. discriminate. Qed.

Lemma Failed_not_Succeeded (code : Z) : reportedAs (Failed code) <> reportedAs Succeeded.
Proof. discriminate. Qed.

(** ** The launch request *)

Lemma runTaskInput_Overrides (t : Task) (td : ecstypes.TaskDefinition) :
  ecs.Overrides (runTaskInput t td) = Some (taskOverride t).
Proof.
  unfold runTaskInput.
  destruct (0 <? List.length (Subnets t))%nat; [destruct (nonEmpty (PlatformVersion t))|];
    reflexivity.
Qed.

Lemma runTaskInput_targets_container (t : Task) (td : ecstypes.TaskDefinition) :
  ecstypes.ContainerOverrides (taskOverride t) =
    [ {| ecstypes.Command := Command t; ecstypes.Name := Some (Container t) |} ].
Proof.
  unfold taskOverride.
  destruct (nonEmpty (taskSizeCpu t) && nonEmpty (taskSizeMemory t)); reflexivity.
Qed.

Lemma subnets_test (l : list string) : (0 <? List.length l)%nat = false <-> l = [].
Proof.
  destruct l; cbn; split; congruence.
Qed.

(** C6.  The request built by [RunTask] carries a task-level CPU/memory
    override exactly when both [taskSizeCpu] and [taskSizeMemory] are
    non-empty, and then it carries both values; when either is empty (in
    particular when exactly one is set) neither CPU nor memory is sent. *)
Theorem resource_override_iff_both_sizes (t : Task) (td : ecstypes.TaskDefinition) :
  exists override,
    ecs.Overrides (runTaskInput t td) = Some override /\
    ((ecstypes.Cpu override <> None \/ ecstypes.Memory override <> None) <->
       (taskSizeCpu t <> "" /\ taskSizeMemory t <> "")) /\
    (taskSizeCpu t <> "" /\ taskSizeMemory t <> "" ->
       ecstypes.Cpu override = Some (taskSizeCpu t) /\
       ecstypes.Memory override = Some (taskSizeMemory t)) /\
    (taskSizeCpu t = "" \/ taskSizeMemory t = "" ->
       ecstypes.Cpu override = None /\ ecstypes.Memory override = None).
Proof.
  exists (taskOverride t). split; [apply runTaskInput_Overrides|].
  unfold taskOverride.
  destruct (nonEmpty (taskSizeCpu t)) eqn:Hc; destruct (nonEmpty (taskSizeMemory t)) eqn:Hm;
    cbn;
    try apply nonEmpty_true in Hc; try apply nonEmpty_true in Hm;
    try apply nonEmpty_false in Hc; try apply nonEmpty_false in Hm.
  all: intuition (try congruence; try discriminate).
Qed.

(** C7.  With no subnets the request has neither a network configuration
    nor a platform version, whatever the launch type; with subnets it has
    the awsvpc configuration made of [AssignPublicIP], [Subnets] and
    [SecurityGroups], and the platform version exactly when that string is
    non-empty.  The launch type is passed on unchanged in every case. *)
Theorem network_configuration_follows_subnets (t : Task) (td : ecstypes.TaskDefinition) :
  (Subnets t = [] ->
     ecs.NetworkConfiguration (runTaskInput t td) = None /\
     ecs.PlatformVersion (runTaskInput t td) = None) /\
  (Subnets t <> [] ->
     ecs.NetworkConfiguration (runTaskInput t td) =
       Some {| ecstypes.AwsvpcConfiguration :=
                 Some {| ecstypes.AssignPublicIp_ := AssignPublicIP t;
                         ecstypes.Subnets := Subnets t;
                         ecstypes.SecurityGroups := SecurityGroups t |} |} /\
     (PlatformVersion t <> "" ->
        ecs.PlatformVersion (runTaskInput t td) = Some (PlatformVersion t)) /\
     (PlatformVersion t = "" -> ecs.PlatformVersion (runTaskInput t td) = None)) /\
  ecs.LaunchType (runTaskInput t td) = LaunchType t.
Proof.
  unfold runTaskInput.
  destruct (0 <? List.length (Subnets t))%nat eqn:Hs.
  - assert (Subnets t <> []) as Hne
        by (intro E; apply subnets_test in E; congruence).
    destruct (nonEmpty (PlatformVersion t)) eqn:Hp; cbn.
    + apply nonEmpty_true in Hp. repeat split; try reflexivity; try contradiction.
    + apply nonEmpty_false in Hp. repeat split; try reflexivity; try contradiction.
  - apply subnets_test in Hs. cbn. repeat split; try reflexivity; try contradiction.
Qed.

(** ** Construction *)

(** C8.  [NewTask] called with an empty cluster, container, task
    definition or command fails with the error that names the first empty
    one (in that order), and has called no collaborator by then: neither the
    configuration loader nor, through it, any remote service. *)
Theorem NewTask_requires_fields
    (newConfig : string -> string -> awsConfig + error)
    (shellwords_Parse : string -> list string + error)
    (cluster container taskDefinitionName command : string)
    (fargate : bool) (subnetIDs securityGroupIDs platformVersion : string)
    (timeout : Z) (timestampFormat profile region taskSizeCpu taskSizeMemory : string) :
  cluster = "" \/ container = "" \/ taskDefinitionName = "" \/ command = "" ->
  NewTask newConfig shellwords_Parse cluster container taskDefinitionName command
    fargate subnetIDs securityGroupIDs platformVersion timeout timestampFormat
    profile region taskSizeCpu taskSizeMemory
  = ([], inr (errors_New
       (if (cluster =? "")%string then "Cluster name is required"
        else if (container =? "")%string then "Container name is required"
        else if (taskDefinitionName =? "")%string then "Task definition is required"
        else "Command is required"))).
Proof.
  intros H. unfold NewTask.
  destruct (String.eqb_spec cluster ""); [reflexivity|].
  destruct (String.eqb_spec container ""); [reflexivity|].
  destruct (String.eqb_spec taskDefinitionName ""); [reflexivity|].
  destruct (String.eqb_spec command ""); [reflexivity|].
  tauto.
Qed.

Lemma NewTask_requires_fields_witness :
  ("prod" = "" \/ "" = "" \/ "migrate:1" = "" \/ "rake db:migrate" = "") /\
  NewTask (fun p r => inl {| cfgProfile := p; cfgRegion := r |})
          (fun s => inl [s])
          "prod" "" "migrate:1" "rake db:migrate" false "" "" "" 0 "" "" "" "" ""
  = ([], inr (errors_New "Container name is required")).
Proof.
  split.
  - right; left; reflexivity.
  - apply (NewTask_requires_fields
             (fun p r => inl {| cfgProfile := p; cfgRegion := r |})
             (fun s => inl [s])
             "prod" "" "migrate:1" "rake db:migrate" false "" "" "" 0 "" "" "" "" "").
    right; left; reflexivity.
Defined.

(** With all four present, the first thing [NewTask] does after the checks
    is to load the configuration. *)
Lemma NewTask_valid_loads_config
    (newConfig : string -> string -> awsConfig + error)
    (shellwords_Parse : string -> list string + error)
    (cluster container taskDefinitionName command : string)
    (fargate : bool) (subnetIDs securityGroupIDs platformVersion : string)
    (timeout : Z) (timestampFormat profile region taskSizeCpu taskSizeMemory : string) :
  cluster <> "" -> container <> "" -> taskDefinitionName <> "" -> command <> "" ->
  fst (NewTask newConfig shellwords_Parse cluster container taskDefinitionName command
         fargate subnetIDs securityGroupIDs platformVersion timeout timestampFormat
         profile region taskSizeCpu taskSizeMemory)
  = [CallNewConfig profile region].
Proof.
  intros H1 H2 H3 H4. unfold NewTask.
  destruct (String.eqb_spec cluster ""); [contradiction|].
  destruct (String.eqb_spec container ""); [contradiction|].
  destruct (String.eqb_spec taskDefinitionName ""); [contradiction|].
  destruct (String.eqb_spec command ""); [contradiction|].
  destruct (newConfig profile region); [destruct (shellwords_Parse command)|]; reflexivity.
Qed.

(** ** Submission *)

Section SubmissionFacts.

Variable api_RunTask : ecs.RunTaskInput -> ecs.RunTaskOutput + error.
Variable fmt_tasks : list ecstypes.Task -> string.

(** [RunTask] calls the service once, with the request it built. *)
Lemma RunTask_calls_once (t : Task) (td : ecstypes.TaskDefinition) :
  fst (RunTask api_RunTask fmt_tasks t td) = [CallRunTask (runTaskInput t td)].
Proof. reflexivity. Qed.

(** An error of the call itself is handed on as it is. *)
Lemma RunTask_remote_error (t : Task) (td : ecstypes.TaskDefinition) (err : error) :
  api_RunTask (runTaskInput t td) = inr err ->
  snd (RunTask api_RunTask fmt_tasks t td) = Ret (inr err).
Proof. unfold RunTask; cbn; intros ->; reflexivity. Qed.

(** Exactly one task and no failure: that task, no error. *)
Lemma RunTask_single_task (t : Task) (td : ecstypes.TaskDefinition)
    (resp : ecs.RunTaskOutput) (task : ecstypes.Task) :
  api_RunTask (runTaskInput t td) = inl resp ->
  ecs.Failures resp = [] ->
  ecs.Tasks resp = [task] ->
  snd (RunTask api_RunTask fmt_tasks t td) = Ret (inl task).
Proof.
  unfold RunTask; cbn; intros -> Hf Ht; cbn. rewrite Hf, Ht. reflexivity.
Qed.

(** A first failure that has a reason: an error with exactly that reason. *)
Lemma RunTask_failure_reason (t : Task) (td : ecstypes.TaskDefinition)
    (resp : ecs.RunTaskOutput) (failure : ecstypes.Failure)
    (others : list ecstypes.Failure) (reason : string) :
  api_RunTask (runTaskInput t td) = inl resp ->
  ecs.Failures resp = failure :: others ->
  ecstypes.Reason failure = Some reason ->
  snd (RunTask api_RunTask fmt_tasks t td) = Ret (inr (errors_New reason)).
Proof.
  unfold RunTask; cbn; intros -> Hf Hr; cbn. rewrite Hf, Hr. reflexivity.
Qed.

(** No failure and a number of tasks other than one: an error that quotes
    the number. *)
Lemma RunTask_unexpected_count (t : Task) (td : ecstypes.TaskDefinition)
    (resp : ecs.RunTaskOutput) :
  api_RunTask (runTaskInput t td) = inl resp ->
  ecs.Failures resp = [] ->
  List.length (ecs.Tasks resp) <> 1%nat ->
  snd (RunTask api_RunTask fmt_tasks t td)
  = Ret (inr (unexpectedCount fmt_tasks (ecs.Tasks resp))).
Proof.
  unfold RunTask; cbn; intros -> Hf Hn; cbn. rewrite Hf.
  destruct (ecs.Tasks resp) as [|task [|task' more]]; cbn in *; congruence.
Qed.

(** A first failure without a reason: [*resp.Failures[0].Reason] panics,
    whatever else the answer holds. *)
Lemma RunTask_failure_nil_reason (t : Task) (td : ecstypes.TaskDefinition)
    (resp : ecs.RunTaskOutput) (failure : ecstypes.Failure)
    (others : list ecstypes.Failure) :
  api_RunTask (runTaskInput t td) = inl resp ->
  ecs.Failures resp = failure :: others ->
  ecstypes.Reason failure = None ->
  snd (RunTask api_RunTask fmt_tasks t td) = Panic.
Proof.
  unfold RunTask; cbn; intros -> Hf Hr; cbn. rewrite Hf, Hr. reflexivity.
Qed.

End SubmissionFacts.

(** C1.  The answer [answerWithoutReason] holds one failure entry whose
    reason is absent.  The claim has [RunTask] return an error for every
    answer with a failure entry; on this one [RunTask] returns nothing: it
    panics on the nil reason. *)
Theorem RunTask_panics_on_failure_without_reason
    (fmt_tasks : list ecstypes.Task -> string) (t : Task) (td : ecstypes.TaskDefinition) :
  ecs.Failures answerWithoutReason <> [] /\
  RunTask (fun _ => inl answerWithoutReason) fmt_tasks t td
  = ([CallRunTask (runTaskInput t td)], Panic) /\
  forall r : ecstypes.Task + error,
    snd (RunTask (fun _ => inl answerWithoutReason) fmt_tasks t td) <> Ret r.
Proof.
  split; [discriminate|]. split; [reflexivity|]. intros r; discriminate.
Qed.

(** ** The stop check *)

Lemma checkTaskStopped_stopped (t : Task) (task : ecstypes.Task) :
  checkTaskStopped t task = Ret true <-> taskStopped task.
Proof.
  unfold checkTaskStopped, taskStopped.
  destruct (ecstypes.LastStatus task) as [s|]; cbn.
  - destruct (String.eqb_spec s "STOPPED"); cbn; split; intro H; congruence.
  - split; discriminate.
Qed.

Lemma checkTaskStopped_other (t : Task) (task : ecstypes.Task) :
  hasStatus task -> ~ taskStopped task -> checkTaskStopped t task = Ret false.
Proof.
  unfold checkTaskStopped, taskStopped, hasStatus.
  destruct (ecstypes.LastStatus task) as [s|]; cbn; [|congruence].
  intros _ H. destruct (String.eqb_spec s "STOPPED"); cbn; congruence.
Qed.

Lemma stoppedLoop_true (t : Task) (tasks : list ecstypes.Task) :
  stoppedLoop t tasks = Ret true <-> Forall taskStopped tasks.
Proof.
  induction tasks as [|task rest IH]; cbn.
  - split; auto.
  - destruct (checkTaskStopped t task) as [[|]|] eqn:E; cbn.
    + apply checkTaskStopped_stopped in E. rewrite IH. split.
      * intros H; constructor; assumption.
      * intros H; inversion H; assumption.
    + split; [discriminate|]. intros H; inversion H as [|? ? Hs _]; subst.
      apply (checkTaskStopped_stopped t) in Hs. congruence.
    + split; [discriminate|]. intros H; inversion H as [|? ? Hs _]; subst.
      apply (checkTaskStopped_stopped t) in Hs. congruence.
Qed.

Lemma stoppedLoop_false (t : Task) (tasks : list ecstypes.Task) :
  Forall hasStatus tasks -> ~ Forall taskStopped tasks ->
  stoppedLoop t tasks = Ret false.
Proof.
  induction tasks as [|task rest IH]; cbn; intros Hs Hn.
  - exfalso; apply Hn; constructor.
  - inversion Hs as [|? ? Hs1 Hs2]; subst.
    destruct (checkTaskStopped t task) as [[|]|] eqn:E; cbn.
    + apply checkTaskStopped_stopped in E. apply IH; [assumption|].
      intros H; apply Hn; constructor; assumption.
    + reflexivity.
    + unfold checkTaskStopped, hasStatus in *.
      destruct (ecstypes.LastStatus task) as [s|]; cbn in E; [|congruence].
      destruct (negb (s =? "STOPPED")%string); discriminate.
Qed.

(** A response all of whose tasks are stopped goes on to the exit codes. *)
Lemma evaluate_stopped (sem : loopVariable) (t : Task) (resp : ecs.DescribeTasksOutput) :
  Forall taskStopped (ecs.DescribedTasks resp) ->
  evaluate sem t resp = succeededLoop sem t (ecs.DescribedTasks resp).
Proof.
  intros H. unfold evaluate. apply (stoppedLoop_true t) in H. rewrite H. reflexivity.
Qed.

(** A response with a task that is not stopped sends the loop round. *)
Lemma evaluate_not_stopped (sem : loopVariable) (t : Task) (resp : ecs.DescribeTasksOutput) :
  Forall hasStatus (ecs.DescribedTasks resp) ->
  ~ Forall taskStopped (ecs.DescribedTasks resp) ->
  evaluate sem t resp = Ret continueRetry.
Proof.
  intros Hs Hn. unfold evaluate. rewrite (stoppedLoop_false t _ Hs Hn). reflexivity.
Qed.

(** A result comes out of a response only past the stop check. *)
Lemma evaluate_returns_stopped (sem : loopVariable) (t : Task)
    (resp : ecs.DescribeTasksOutput) (err : option error) :
  evaluate sem t resp = Ret (returns err) ->
  Forall taskStopped (ecs.DescribedTasks resp).
Proof.
  unfold evaluate.
  destruct (stoppedLoop t (ecs.DescribedTasks resp)) as [[|]|] eqn:E; cbn.
  - intros _. now apply (stoppedLoop_true t).
  - discriminate.
  - discriminate.
Qed.

(** ** The loop *)

Lemma continues_fetches (sem : loopVariable) (t : Task) (arn : string) (w : tick) :
  continues sem t arn w ->
  fired w = timeAfter /\ fst (iteration sem t arn w) = pollEffects t arn.
Proof.
  unfold continues, iteration.
  destruct (fired w); cbn; [discriminate|]. intros _. split; reflexivity.
Qed.

Lemma waitExitTasks_continue (sem : loopVariable) (t : Task) (arn : string)
    (w : tick) (later : list tick) :
  continues sem t arn w ->
  waitExitTasks sem t arn (w :: later)
  = ((pollEffects t arn ++ fst (waitExitTasks sem t arn later))%list,
     snd (waitExitTasks sem t arn later)).
Proof.
  intros H. destruct (continues_fetches _ _ _ _ H) as [_ He].
  unfold continues in H. cbn [waitExitTasks].
  destruct (iteration sem t arn w) as [effects v]. cbn in H, He. subst.
  destruct (waitExitTasks sem t arn later). reflexivity.
Qed.

Lemma waitExitTasks_return (sem : loopVariable) (t : Task) (arn : string)
    (w : tick) (later : list tick) (err : option error) :
  snd (iteration sem t arn w) = Ret (returns err) ->
  waitExitTasks sem t arn (w :: later) = (fst (iteration sem t arn w), Returned err).
Proof.
  intros H. cbn [waitExitTasks].
  destruct (iteration sem t arn w) as [effects v]. cbn in H. subst. reflexivity.
Qed.

(** Ticks that send the loop round are passed one after the other. *)
Lemma waitExitTasks_rounds (sem : loopVariable) (t : Task) (arn : string)
    (pre world : list tick) :
  Forall (continues sem t arn) pre ->
  waitExitTasks sem t arn (pre ++ world)%list
  = ((pollRounds t arn (List.length pre) ++ fst (waitExitTasks sem t arn world))%list,
     snd (waitExitTasks sem t arn world)).
Proof.
  induction pre as [|w pre IH]; intros H.
  - cbn. destruct (waitExitTasks sem t arn world); reflexivity.
  - inversion H as [|? ? Hw Hpre]; subst.
    change ((w :: pre) ++ world)%list with (w :: (pre ++ world))%list.
    rewrite (waitExitTasks_continue _ _ _ _ _ Hw), (IH Hpre). cbn [fst snd].
    unfold pollRounds. cbn [List.length repeat List.concat].
    rewrite <- app_assoc. reflexivity.
Qed.

Lemma concat_repeat_succ {A : Type} (x : list A) (n : nat) :
  List.concat (repeat x (S n)) = (List.concat (repeat x n) ++ x)%list.
Proof.
  induction n as [|n IH].
  - cbn. now rewrite app_nil_r.
  - transitivity (x ++ List.concat (repeat x (S n)))%list; [reflexivity|].
    rewrite IH at 1.
    transitivity ((x ++ List.concat (repeat x n)) ++ x)%list; [|reflexivity].
    now rewrite app_assoc.
Qed.

Lemma pollRounds_succ (t : Task) (arn : string) (n : nat) :
  pollRounds t arn (S n) = (pollRounds t arn n ++ pollEffects t arn)%list.
Proof. apply concat_repeat_succ. Qed.

(** [WaitTask] on a task that has an ARN. *)
Lemma WaitTask_unfold (sem : loopVariable) (t : Task) (task : ecstypes.Task)
    (arn : string) (world : list tick) :
  ecstypes.TaskArn task = Some arn ->
  WaitTask sem t task world
  = (fst (waitExitTasks sem t arn world),
     match snd (waitExitTasks sem t arn world) with
     | Returned err =>
         if is_DeadlineExceeded err then Returned (Some (errors_New "process timeout"))
         else Returned err
     | s => s
     end).
Proof.
  intros H. unfold WaitTask. rewrite H.
  destruct (waitExitTasks sem t arn world) as [effects [err| |]]; reflexivity.
Qed.

(** The trace of the loop has the shape [polled]. *)
Lemma waitExitTasks_polled (sem : loopVariable) (t : Task) (arn : string)
    (world : list tick) :
  polled (fst (waitExitTasks sem t arn world)).
Proof.
  induction world as [|w later IH]; cbn [waitExitTasks].
  - constructor.
  - unfold iteration. destruct (fired w).
    + cbn. constructor.
    + destruct (match answer w with
                | inl resp => evaluate sem t resp
                | inr err => Ret (returns (Some err))
                end) as [[|err]|].
      * destruct (waitExitTasks sem t arn later) as [effects' s]. cbn in *.
        constructor. assumption.
      * cbn. repeat constructor.
      * cbn. repeat constructor.
Qed.

Lemma polled_fetch_follows_wait (trace : list effect) :
  polled trace ->
  forall l1 params l2,
    trace = (l1 ++ CallDescribeTasks params :: l2)%list ->
    exists l0, l1 = (l0 ++ [Select pollInterval])%list.
Proof.
  induction 1 as [| |p rest Hrest IH]; intros l1 params l2 E.
  - destruct l1; discriminate.
  - destruct l1 as [|a [|b l1]]; try discriminate.
  - destruct l1 as [|a [|b l1]]; try discriminate.
    + cbn in E. injection E as Ha _ _. subst a. exists []. reflexivity.
    + cbn in E. injection E as Ha Hb E. subst a b.
      destruct (IH _ _ _ E) as [l0 ->].
      exists (Select pollInterval :: CallDescribeTasks p :: l0). reflexivity.
Qed.

(** ** The target lookup *)

Lemma scanContainers_app (sem : loopVariable) (name : string)
    (l1 l2 cells : list ecstypes.Container) (target : option nat) :
  scanContainers sem name (l1 ++ l2)%list cells target
  = (r <- scanContainers sem name l1 cells target ;;
     scanContainers sem name l2 (fst r) (snd r)).
Proof.
  revert cells target. induction l1 as [|x l1 IH]; intros cells target.
  - reflexivity.
  - cbn [app scanContainers].
    destruct (assignLoopVariable sem cells x) as [cells' addr].
    destruct (ecstypes.ContainerName x) as [n|]; cbn; [apply IH|reflexivity].
Qed.

(** Containers of another name leave [targetContainer] as it was. *)
Lemma scanContainers_no_match (sem : loopVariable) (name : string)
    (containers cells : list ecstypes.Container) (target : option nat) :
  Forall named containers ->
  Forall (fun c => ~ hasName name c) containers ->
  exists cells', scanContainers sem name containers cells target = Ret (cells', target).
Proof.
  revert cells target. induction containers as [|x rest IH]; intros cells target Hn Hm.
  - exists cells. reflexivity.
  - inversion Hn as [|? ? Hx Hrest]; inversion Hm as [|? ? Mx Mrest]; subst.
    cbn [scanContainers].
    destruct (assignLoopVariable sem cells x) as [cells' addr].
    unfold named, hasName in *.
    destruct (ecstypes.ContainerName x) as [n|]; [|congruence]. cbn.
    destruct (String.eqb_spec n name); [subst; congruence|].
    apply IH; assumption.
Qed.

(** With a variable per iteration every value of [c] keeps its own cell. *)
Lemma scanContainers_per_iteration (name : string)
    (containers cells : list ecstypes.Container) (target : option nat) :
  Forall named containers ->
  exists target',
    scanContainers PerIteration name containers cells target
    = Ret ((cells ++ containers)%list, target').
Proof.
  revert cells target. induction containers as [|x rest IH]; intros cells target Hn.
  - exists target. cbn. now rewrite app_nil_r.
  - inversion Hn as [|? ? Hx Hrest]; subst. cbn [scanContainers assignLoopVariable].
    unfold named in Hx. destruct (ecstypes.ContainerName x) as [n|]; [|congruence]. cbn.
    destruct (IH (cells ++ [x])%list
                 (if (n =? name)%string then Some (List.length cells) else target) Hrest)
      as [target' E].
    exists target'. rewrite E, <- app_assoc. reflexivity.
Qed.

Lemma scanContainers_per_iteration_no_match (name : string)
    (containers cells : list ecstypes.Container) (target : option nat) :
  Forall named containers ->
  Forall (fun c => ~ hasName name c) containers ->
  scanContainers PerIteration name containers cells target
  = Ret ((cells ++ containers)%list, target).
Proof.
  intros Hn Hm.
  destruct (scanContainers_per_iteration name containers cells target Hn) as [t1 E1].
  destruct (scanContainers_no_match PerIteration name containers cells target Hn Hm)
    as [c2 E2].
  congruence.
Qed.

(** Per-iteration variables: the lookup yields the last container of that
    name. *)
Lemma lookupTarget_last_match (name : string)
    (before after : list ecstypes.Container) (c : ecstypes.Container) :
  Forall named (before ++ c :: after)%list ->
  hasName name c ->
  Forall (fun c' => ~ hasName name c') after ->
  lookupTarget PerIteration name (before ++ c :: after)%list = Ret (Some c).
Proof.
  intros Hn Hc Ha. unfold lookupTarget.
  apply Forall_app in Hn. destruct Hn as [Hb Hca].
  inversion Hca as [|? ? _ Hafter]; subst.
  rewrite scanContainers_app.
  destruct (scanContainers_per_iteration name before [] None Hb) as [t1 E1].
  rewrite E1. cbn [bind fst snd app scanContainers assignLoopVariable].
  unfold hasName in Hc. rewrite Hc. cbn [deref bind]. rewrite String.eqb_refl.
  rewrite (scanContainers_per_iteration_no_match name after _ _ Hafter Ha).
  cbn [bind fst snd]. rewrite <- app_assoc. cbn [app].
  rewrite nth_error_app2 by lia. rewrite Nat.sub_diag. reflexivity.
Qed.

(** No container of that name: the lookup yields nil, whichever way the
    loop variable is kept. *)
Lemma lookupTarget_missing (sem : loopVariable) (name : string)
    (containers : list ecstypes.Container) :
  Forall named containers ->
  Forall (fun c => ~ hasName name c) containers ->
  lookupTarget sem name containers = Ret None.
Proof.
  intros Hn Hm. unfold lookupTarget.
  destruct (scanContainers_no_match sem name containers [] None Hn Hm) as [cells E].
  rewrite E. reflexivity.
Qed.

(** One variable for the whole loop: once the scan is over the variable
    holds the last container of the sequence, and that is what a non-nil
    [targetContainer] points to. *)
Lemma scanContainers_per_loop (name : string) (containers : list ecstypes.Container)
    (x : ecstypes.Container) (cells : list ecstypes.Container) (target : option nat) :
  Forall named (containers ++ [x])%list ->
  exists target',
    scanContainers PerLoop name (containers ++ [x])%list cells target = Ret ([x], target')
    /\ (target' = Some 0%nat \/ target' = target)
    /\ (Exists (hasName name) (containers ++ [x])%list -> target' = Some 0%nat).
Proof.
  revert cells target. induction containers as [|y rest IH]; intros cells target Hn.
  - inversion Hn as [|? ? Hx _]; subst. cbn [app scanContainers assignLoopVariable].
    unfold named in Hx. destruct (ecstypes.ContainerName x) as [n|] eqn:En; [|congruence].
    cbn. exists (if (n =? name)%string then Some 0%nat else target).
    split; [reflexivity|]. split.
    + destruct (n =? name)%string; auto.
    + intros He. inversion He as [? ? Hh|? ? Hh]; subst; [|inversion Hh].
      unfold hasName in Hh. rewrite En in Hh. injection Hh as ->.
      now rewrite String.eqb_refl.
  - inversion Hn as [|? ? Hy Hrest]; subst.
    cbn [app scanContainers assignLoopVariable].
    unfold named in Hy. destruct (ecstypes.ContainerName y) as [n|] eqn:En; [|congruence].
    cbn [deref bind].
    destruct (IH [y] (if (n =? name)%string then Some 0%nat else target) Hrest)
      as [target' [E [Hcase Hex]]].
    exists target'. split; [exact E|]. split.
    + destruct (n =? name)%string; destruct Hcase; auto.
    + intros He. inversion He as [? ? Hh|? ? Hh]; subst.
      * unfold hasName in Hh. rewrite En in Hh. injection Hh as ->.
        rewrite String.eqb_refl in Hcase. destruct Hcase; assumption.
      * auto.
Qed.

Lemma lookupTarget_per_loop_last_element (name : string)
    (containers : list ecstypes.Container) (x : ecstypes.Container) :
  Forall named (containers ++ [x])%list ->
  Exists (hasName name) (containers ++ [x])%list ->
  lookupTarget PerLoop name (containers ++ [x])%list = Ret (Some x).
Proof.
  intros Hn He. unfold lookupTarget.
  destruct (scanContainers_per_loop name containers x [] None Hn) as [t' [E [_ Hex]]].
  rewrite E, (Hex He). reflexivity.
Qed.

(** ** The exit code *)

Lemma checkTaskSucceeded_missing (sem : loopVariable) (t : Task) (task : ecstypes.Task) :
  Forall named (ecstypes.Containers task) ->
  Forall (fun c => ~ hasName (Container t) c) (ecstypes.Containers task) ->
  checkTaskSucceeded sem t task
  = Ret (1, false, Some (errors_New "can not find target container")).
Proof.
  intros Hn Hm. unfold checkTaskSucceeded.
  rewrite (lookupTarget_missing _ _ _ Hn Hm). reflexivity.
Qed.

Lemma checkTaskSucceeded_last_match (t : Task) (task : ecstypes.Task)
    (before after : list ecstypes.Container) (c : ecstypes.Container) :
  ecstypes.Containers task = (before ++ c :: after)%list ->
  Forall named (ecstypes.Containers task) ->
  hasName (Container t) c ->
  Forall (fun c' => ~ hasName (Container t) c') after ->
  checkTaskSucceeded goLoopVariable t task
  = match ecstypes.ExitCode c with
    | None => Ret (1, false, Some (errors_New "can not read exit code"))
    | Some code => if code =? 0 then Ret (0, true, None) else Ret (code, false, None)
    end.
Proof.
  intros E Hn Hc Ha. unfold checkTaskSucceeded, goLoopVariable. rewrite E in *.
  rewrite (lookupTarget_last_match _ _ _ _ Hn Hc Ha). cbn [bind].
  destruct (ecstypes.ExitCode c) as [code|]; [|reflexivity].
  destruct (code =? 0); reflexivity.
Qed.

(** ** One fetched response *)

Lemma iteration_fetched (sem : loopVariable) (t : Task) (arn : string) (w : tick)
    (resp : ecs.DescribeTasksOutput) :
  fired w = timeAfter -> answer w = inl resp ->
  iteration sem t arn w = (pollEffects t arn, evaluate sem t resp).
Proof. unfold iteration. intros -> ->. reflexivity. Qed.

Lemma iteration_fetch_failed (sem : loopVariable) (t : Task) (arn : string) (w : tick)
    (err : error) :
  fired w = timeAfter -> answer w = inr err ->
  iteration sem t arn w = (pollEffects t arn, Ret (returns (Some err))).
Proof. unfold iteration. intros -> ->. reflexivity. Qed.

Lemma iteration_done (sem : loopVariable) (t : Task) (arn : string) (w : tick)
    (r : doneReason) :
  fired w = ctxDone r ->
  iteration sem t arn w = ([Select pollInterval], Ret (returns (Some (ctx_Err r)))).
Proof. unfold iteration. intros ->. reflexivity. Qed.

(** A stopped single task whose target container is the last of its name. *)
Lemma evaluate_single_stopped (t : Task) (task : ecstypes.Task)
    (before after : list ecstypes.Container) (c : ecstypes.Container) :
  taskStopped task ->
  ecstypes.Containers task = (before ++ c :: after)%list ->
  Forall named (ecstypes.Containers task) ->
  hasName (Container t) c ->
  Forall (fun c' => ~ hasName (Container t) c') after ->
  evaluate goLoopVariable t {| ecs.DescribedTasks := [task] |}
  = match ecstypes.ExitCode c with
    | None => Ret continueRetry
    | Some code =>
        Ret (returns (reportedAs (if code =? 0 then Succeeded else Failed code)))
    end.
Proof.
  intros Hs E Hn Hc Ha.
  rewrite evaluate_stopped by (cbn; constructor; [assumption|constructor]).
  cbn [ecs.DescribedTasks succeededLoop].
  rewrite (checkTaskSucceeded_last_match t task before after c E Hn Hc Ha).
  destruct (ecstypes.ExitCode c) as [code|]; [|reflexivity].
  destruct (code =? 0); reflexivity.
Qed.

Lemma evaluate_single_missing (sem : loopVariable) (t : Task) (task : ecstypes.Task) :
  taskStopped task ->
  Forall named (ecstypes.Containers task) ->
  Forall (fun c => ~ hasName (Container t) c) (ecstypes.Containers task) ->
  evaluate sem t {| ecs.DescribedTasks := [task] |} = Ret continueRetry.
Proof.
  intros Hs Hn Hm.
  rewrite evaluate_stopped by (cbn; constructor; [assumption|constructor]).
  cbn [ecs.DescribedTasks succeededLoop].
  rewrite (checkTaskSucceeded_missing sem t task Hn Hm). reflexivity.
Qed.

(** A response without any task passes both loops: [waitExitTasks] returns
    nil. *)
Lemma evaluate_no_task (sem : loopVariable) (t : Task) :
  evaluate sem t {| ecs.DescribedTasks := [] |} = Ret (returns None).
Proof. reflexivity. Qed.

(** The spec's three ticks: running, running, stopped with exit code 0. *)
Example three_ticks_succeed :
  WaitTask goLoopVariable sampleTask succeededTask
    [fetched runningTask; fetched runningTask; fetched succeededTask]
  = (pollRounds sampleTask sampleArn 3, Returned (reportedAs Succeeded)).
Proof. reflexivity. Qed.

(** ** Claims about the polling loop *)

(** C2, as stated, fails.  The task [stoppedWithRunningSidecar] reports
    "STOPPED" while its sidecar container still reports "RUNNING"; the loop
    does not re-poll but goes on to the exit code and returns success. *)
Lemma running_container_does_not_hold_the_loop :
  Exists (fun c => ~ containerStopped c) (ecstypes.Containers stoppedWithRunningSidecar) /\
  WaitTask goLoopVariable sampleTask stoppedWithRunningSidecar
    [fetched stoppedWithRunningSidecar]
  = (pollEffects sampleTask sampleArn, Returned (reportedAs Succeeded)).
Proof.
  split.
  - right. left. discriminate.
  - reflexivity.
Qed.

(** C2, amended.  The stop check reads the lifecycle state of each task of
    the response, not of its containers.  A result comes out of a fetched
    response only if every task in it reports "STOPPED", and then the loop
    goes on to the exit codes; if some task does not, the iteration gives
    neither result nor error and the loop polls again with the ticks that
    follow. *)
Theorem stop_check_reads_task_status (sem : loopVariable) (t : Task) (arn : string)
    (w : tick) (resp : ecs.DescribeTasksOutput) (later : list tick) :
  fired w = timeAfter ->
  answer w = inl resp ->
  (forall err, snd (iteration sem t arn w) = Ret (returns err) ->
     Forall taskStopped (ecs.DescribedTasks resp)) /\
  (Forall taskStopped (ecs.DescribedTasks resp) ->
     snd (iteration sem t arn w) = succeededLoop sem t (ecs.DescribedTasks resp)) /\
  (Forall hasStatus (ecs.DescribedTasks resp) ->
   ~ Forall taskStopped (ecs.DescribedTasks resp) ->
     snd (iteration sem t arn w) = Ret continueRetry /\
     waitExitTasks sem t arn (w :: later)
     = ((pollEffects t arn ++ fst (waitExitTasks sem t arn later))%list,
        snd (waitExitTasks sem t arn later))).
Proof.
  intros Hf Ha. rewrite (iteration_fetched sem t arn w resp Hf Ha). cbn [snd].
  split; [|split].
  - intros err. apply evaluate_returns_stopped.
  - apply evaluate_stopped.
  - intros Hs Hn.
    assert (evaluate sem t resp = Ret continueRetry) as E
        by (apply evaluate_not_stopped; assumption).
    split; [exact E|].
    apply waitExitTasks_continue. unfold continues.
    rewrite (iteration_fetched sem t arn w resp Hf Ha). exact E.
Qed.

Lemma stop_check_reads_task_status_witness :
  fired (fetched deprovisioningTask) = timeAfter /\
  answer (fetched deprovisioningTask)
  = inl {| ecs.DescribedTasks := [deprovisioningTask] |} /\
  Forall hasStatus [deprovisioningTask] /\
  ~ Forall taskStopped [deprovisioningTask] /\
  snd (iteration goLoopVariable sampleTask sampleArn (fetched deprovisioningTask))
  = Ret continueRetry.
Proof.
  assert (Hs : Forall hasStatus [deprovisioningTask])
    by (repeat constructor; discriminate).
  assert (Hn : ~ Forall taskStopped [deprovisioningTask])
    by (intros H; inversion H as [|? ? H1 _]; discriminate H1).
  split; [reflexivity|]. split; [reflexivity|].
  split; [exact Hs|]. split; [exact Hn|].
  destruct (stop_check_reads_task_status goLoopVariable sampleTask sampleArn
              (fetched deprovisioningTask)
              {| ecs.DescribedTasks := [deprovisioningTask] |} []
              eq_refl eq_refl) as [_ [_ H]].
  exact (proj1 (H Hs Hn)).
Defined.

(** C3, as stated, fails.  All containers of [deprovisioningTask] are
    stopped and the target's exit code 0 can be read, but the task itself
    still reports "DEPROVISIONING": the wait does not return success on
    this response, and times out if the deadline comes next. *)
Lemma stopped_containers_do_not_end_the_wait :
  Forall containerStopped (ecstypes.Containers deprovisioningTask) /\
  lookupTarget goLoopVariable (Container sampleTask)
    (ecstypes.Containers deprovisioningTask)
  = Ret (Some (container "app" "STOPPED" (Some 0))) /\
  snd (WaitTask goLoopVariable sampleTask deprovisioningTask
         [fetched deprovisioningTask]) = Polling /\
  snd (WaitTask goLoopVariable sampleTask deprovisioningTask
         [fetched deprovisioningTask; interrupted deadlineElapsed deprovisioningTask])
  = Returned (reportedAs TimedOut) /\
  Returned (reportedAs TimedOut) <> Returned (reportedAs Succeeded).
Proof.
  split; [repeat constructor|].
  split; [reflexivity|]. split; [reflexivity|]. split; [reflexivity|discriminate].
Qed.

(** C3, amended.  When a fetched task reports "STOPPED" and the exit code
    of its target container (the last container of that name) can be read,
    the wait returns at that response: success for exit code 0, and for any
    other code the failure that carries exactly that code. *)
Theorem exit_code_decides_result (t : Task) (handle task : ecstypes.Task) (arn : string)
    (pre later : list tick) (w : tick)
    (before after : list ecstypes.Container) (c : ecstypes.Container) (code : Z) :
  ecstypes.TaskArn handle = Some arn ->
  Forall (continues goLoopVariable t arn) pre ->
  fired w = timeAfter ->
  answer w = inl {| ecs.DescribedTasks := [task] |} ->
  taskStopped task ->
  ecstypes.Containers task = (before ++ c :: after)%list ->
  Forall named (ecstypes.Containers task) ->
  hasName (Container t) c ->
  Forall (fun c' => ~ hasName (Container t) c') after ->
  ecstypes.ExitCode c = Some code ->
  WaitTask goLoopVariable t handle (pre ++ w :: later)%list
  = (pollRounds t arn (S (List.length pre)),
     Returned (reportedAs (if code =? 0 then Succeeded else Failed code))) /\
  (forall code', reportedAs (Failed code) = reportedAs (Failed code') -> code = code').
Proof.
  intros Harn Hpre Hf Ha Hs E Hn Hc Hafter Hcode. split.
  - rewrite (WaitTask_unfold _ _ _ _ _ Harn), (waitExitTasks_rounds _ _ _ _ _ Hpre).
    assert (snd (iteration goLoopVariable t arn w)
            = Ret (returns (reportedAs (if code =? 0 then Succeeded else Failed code))))
      as Hit.
    { rewrite (iteration_fetched _ _ _ _ _ Hf Ha). cbn [snd].
      rewrite (evaluate_single_stopped t task before after c Hs E Hn Hc Hafter), Hcode.
      reflexivity. }
    rewrite (waitExitTasks_return _ _ _ _ _ _ Hit).
    rewrite (iteration_fetched _ _ _ _ _ Hf Ha). cbn [fst snd].
    rewrite pollRounds_succ. f_equal.
    destruct (code =? 0); reflexivity.
  - intros code'. apply reportedAs_Failed_inj.
Qed.

Lemma exit_code_decides_result_witness :
  ecstypes.TaskArn duplicateNames = Some sampleArn /\
  Forall (continues goLoopVariable sampleTask sampleArn) [fetched runningTask] /\
  taskStopped duplicateNames /\
  Forall named (ecstypes.Containers duplicateNames) /\
  hasName (Container sampleTask) (container "app" "STOPPED" (Some 7)) /\
  Forall (fun c' => ~ hasName (Container sampleTask) c')
    [container "sidecar" "STOPPED" (Some 0)] /\
  WaitTask goLoopVariable sampleTask duplicateNames
    [fetched runningTask; fetched duplicateNames]
  = (pollRounds sampleTask sampleArn 2, Returned (reportedAs (Failed 7))).
Proof.
  assert (Hpre : Forall (continues goLoopVariable sampleTask sampleArn)
                   [fetched runningTask])
    by (repeat constructor).
  assert (Hn : Forall named (ecstypes.Containers duplicateNames))
    by (repeat constructor; discriminate).
  assert (Ha : Forall (fun c' => ~ hasName (Container sampleTask) c')
                 [container "sidecar" "STOPPED" (Some 0)])
    by (repeat constructor; discriminate).
  split; [reflexivity|]. split; [exact Hpre|]. split; [reflexivity|].
  split; [exact Hn|]. split; [reflexivity|]. split; [exact Ha|].
  exact (proj1 (exit_code_decides_result sampleTask duplicateNames duplicateNames
           sampleArn [fetched runningTask] [] (fetched duplicateNames)
           [container "app" "STOPPED" (Some 0)]
           [container "sidecar" "STOPPED" (Some 0)]
           (container "app" "STOPPED" (Some 7)) 7
           eq_refl Hpre eq_refl eq_refl eq_refl eq_refl Hn eq_refl Ha eq_refl)).
Defined.

(** C4, as stated, fails.  In [failedWithRunningSidecar] the sidecar
    container is not stopped, yet the loop does not go on polling: the task
    reports "STOPPED", so the target's exit code 7 ends the wait with an
    error. *)
Lemma running_container_does_not_stop_the_error :
  Exists (fun c => ~ containerStopped c) (ecstypes.Containers failedWithRunningSidecar) /\
  ~ continues goLoopVariable sampleTask sampleArn (fetched failedWithRunningSidecar) /\
  WaitTask goLoopVariable sampleTask failedWithRunningSidecar
    [fetched failedWithRunningSidecar]
  = (pollEffects sampleTask sampleArn, Returned (reportedAs (Failed 7))).
Proof.
  split; [right; left; discriminate|]. split; [discriminate|reflexivity].
Qed.

(** C4, amended.  In any iteration whose timer fires: an error of the fetch
    ends the wait with that very error, after exactly one fetch per
    iteration and with nothing done afterwards; whereas a task that does
    not report "STOPPED", a stopped task without a container of the target
    name, and a stopped task whose target container has no exit code each
    make the loop go round again, without result or error. *)
Theorem fetch_error_aborts_inconclusive_continues (t : Task) (arn : string)
    (pre later : list tick) (w : tick) :
  Forall (continues goLoopVariable t arn) pre ->
  fired w = timeAfter ->
  (forall err, answer w = inr err ->
     waitExitTasks goLoopVariable t arn (pre ++ w :: later)%list
     = (pollRounds t arn (S (List.length pre)), Returned (Some err)) /\
     forall handle, ecstypes.TaskArn handle = Some arn ->
       err <> context_DeadlineExceeded ->
       snd (WaitTask goLoopVariable t handle (pre ++ w :: later)%list)
       = Returned (reportedAs (Error err))) /\
  (forall resp, answer w = inl resp ->
     Forall hasStatus (ecs.DescribedTasks resp) ->
     ~ Forall taskStopped (ecs.DescribedTasks resp) ->
     continues goLoopVariable t arn w) /\
  (forall task, answer w = inl {| ecs.DescribedTasks := [task] |} ->
     taskStopped task ->
     Forall named (ecstypes.Containers task) ->
     Forall (fun c => ~ hasName (Container t) c) (ecstypes.Containers task) ->
     continues goLoopVariable t arn w) /\
  (forall task before c after, answer w = inl {| ecs.DescribedTasks := [task] |} ->
     taskStopped task ->
     Forall named (ecstypes.Containers task) ->
     ecstypes.Containers task = (before ++ c :: after)%list ->
     hasName (Container t) c ->
     Forall (fun c' => ~ hasName (Container t) c') after ->
     ecstypes.ExitCode c = None ->
     continues goLoopVariable t arn w) /\
  (continues goLoopVariable t arn w ->
     waitExitTasks goLoopVariable t arn (pre ++ w :: later)%list
     = ((pollRounds t arn (S (List.length pre))
         ++ fst (waitExitTasks goLoopVariable t arn later))%list,
        snd (waitExitTasks goLoopVariable t arn later))).
Proof.
  intros Hpre Hf. repeat split.
  - rewrite (waitExitTasks_rounds _ _ _ _ _ Hpre).
    pose proof (iteration_fetch_failed goLoopVariable t arn w err Hf H) as Hit.
    rewrite (waitExitTasks_return _ _ _ _ _ (Some err)) by (rewrite Hit; reflexivity).
    rewrite Hit. cbn [fst snd]. now rewrite pollRounds_succ.
  - intros handle Harn Hne.
    rewrite (WaitTask_unfold _ _ _ _ _ Harn), (waitExitTasks_rounds _ _ _ _ _ Hpre).
    pose proof (iteration_fetch_failed goLoopVariable t arn w err Hf H) as Hit.
    rewrite (waitExitTasks_return _ _ _ _ _ (Some err)) by (rewrite Hit; reflexivity).
    cbn [snd]. destruct err; try reflexivity. congruence.
  - intros resp Ha Hs Hn. unfold continues.
    rewrite (iteration_fetched _ _ _ _ _ Hf Ha). cbn [snd].
    now apply evaluate_not_stopped.
  - intros task Ha Hs Hn Hm. unfold continues.
    rewrite (iteration_fetched _ _ _ _ _ Hf Ha). cbn [snd].
    now apply evaluate_single_missing.
  - intros task before c after Ha Hs Hn E Hc Hafter Hcode. unfold continues.
    rewrite (iteration_fetched _ _ _ _ _ Hf Ha). cbn [snd].
    rewrite (evaluate_single_stopped t task before after c Hs E Hn Hc Hafter), Hcode.
    reflexivity.
  - intros Hw.
    rewrite (waitExitTasks_rounds _ _ _ _ _ Hpre), (waitExitTasks_continue _ _ _ _ _ Hw).
    cbn [fst snd]. rewrite pollRounds_succ, app_assoc. reflexivity.
Qed.

Lemma fetch_error_aborts_inconclusive_continues_witness :
  Forall (continues goLoopVariable sampleTask sampleArn) [fetched runningTask] /\
  fired {| fired := timeAfter; answer := inr (external "AccessDeniedException") |}
  = timeAfter /\
  waitExitTasks goLoopVariable sampleTask sampleArn
    [fetched runningTask;
     {| fired := timeAfter; answer := inr (external "AccessDeniedException") |};
     fetched succeededTask]
  = (pollRounds sampleTask sampleArn 2, Returned (Some (external "AccessDeniedException"))).
Proof.
  assert (Hpre : Forall (continues goLoopVariable sampleTask sampleArn)
                   [fetched runningTask])
    by (repeat constructor).
  split; [exact Hpre|]. split; [reflexivity|].
  destruct (fetch_error_aborts_inconclusive_continues sampleTask sampleArn
              [fetched runningTask] [fetched succeededTask]
              {| fired := timeAfter; answer := inr (external "AccessDeniedException") |}
              Hpre eq_refl) as [H _].
  exact (proj1 (H (external "AccessDeniedException") eq_refl)).
Defined.

(** A stopped task whose target container has no exit code yet keeps the
    loop polling; the result comes with the response that has the code. *)
Example absent_exit_code_is_polled_again :
  WaitTask goLoopVariable sampleTask succeededTask
    [fetched exitCodeAbsent; fetched exitCodeAbsent; fetched succeededTask]
  = (pollRounds sampleTask sampleArn 3, Returned (reportedAs Succeeded)).
Proof. reflexivity. Qed.

(** C5, as stated, fails.  When the caller cancels, [WaitTask] returns
    [context.Canceled] as it is, which is not the timeout result. *)
Lemma cancellation_is_not_reported_as_timeout :
  WaitTask goLoopVariable sampleTask runningTask [interrupted callerCancelled runningTask]
  = ([Select pollInterval], Returned (reportedAs (Error context_Canceled))) /\
  Returned (reportedAs (Error context_Canceled)) <> Returned (reportedAs TimedOut).
Proof.
  split; [reflexivity|discriminate].
Qed.

(** C5, amended.  When [ctx.Done()] fires before a result: if the deadline
    has elapsed, [WaitTask] returns the timeout result ("process timeout"),
    which differs from success and from every task failure; if the caller
    has cancelled, it returns [context.Canceled] unchanged, which is not the
    timeout result.  No fetch is made in that iteration. *)
Theorem deadline_times_out_cancel_is_handed_on (sem : loopVariable) (t : Task)
    (handle : ecstypes.Task) (arn : string) (pre later : list tick) (w : tick)
    (r : doneReason) :
  ecstypes.TaskArn handle = Some arn ->
  Forall (continues sem t arn) pre ->
  fired w = ctxDone r ->
  WaitTask sem t handle (pre ++ w :: later)%list
  = ((pollRounds t arn (List.length pre) ++ [Select pollInterval])%list,
     Returned (match r with
               | deadlineElapsed => reportedAs TimedOut
               | callerCancelled => Some context_Canceled
               end)) /\
  (forall code, reportedAs TimedOut <> reportedAs (Failed code)) /\
  reportedAs TimedOut <> reportedAs Succeeded /\
  Some context_Canceled <> reportedAs TimedOut.
Proof.
  intros Harn Hpre Hf. split; [|split; [|split]].
  - rewrite (WaitTask_unfold _ _ _ _ _ Harn), (waitExitTasks_rounds _ _ _ _ _ Hpre).
    pose proof (iteration_done sem t arn w r Hf) as Hit.
    rewrite (waitExitTasks_return _ _ _ _ _ (Some (ctx_Err r)))
      by (rewrite Hit; reflexivity).
    rewrite Hit. cbn [fst snd]. destruct r; reflexivity.
  - apply TimedOut_not_Failed.
  - apply TimedOut_not_Succeeded.
  - discriminate.
Qed.

Lemma deadline_times_out_cancel_is_handed_on_witness :
  ecstypes.TaskArn runningTask = Some sampleArn /\
  Forall (continues goLoopVariable sampleTask sampleArn) [fetched runningTask] /\
  fired (interrupted deadlineElapsed runningTask) = ctxDone deadlineElapsed /\
  WaitTask goLoopVariable sampleTask runningTask
    [fetched runningTask; interrupted deadlineElapsed runningTask]
  = ((pollRounds sampleTask sampleArn 1 ++ [Select pollInterval])%list,
     Returned (reportedAs TimedOut)).
Proof.
  assert (Hpre : Forall (continues goLoopVariable sampleTask sampleArn)
                   [fetched runningTask])
    by (repeat constructor).
  split; [reflexivity|]. split; [exact Hpre|]. split; [reflexivity|].
  exact (proj1 (deadline_times_out_cancel_is_handed_on goLoopVariable sampleTask
                  runningTask sampleArn [fetched runningTask] []
                  (interrupted deadlineElapsed runningTask) deadlineElapsed
                  eq_refl Hpre eq_refl)).
Defined.

(** C9.  Among the containers of a described task, the lookup settles on
    the last one that bears the target name, however many bear it, and the
    verdict of [checkTaskSucceeded] is read off that container's exit code
    alone. *)
Theorem last_container_of_the_name_decides (t : Task) (task : ecstypes.Task)
    (before after : list ecstypes.Container) (c : ecstypes.Container) :
  ecstypes.Containers task = (before ++ c :: after)%list ->
  Forall named (ecstypes.Containers task) ->
  hasName (Container t) c ->
  Forall (fun c' => ~ hasName (Container t) c') after ->
  lookupTarget goLoopVariable (Container t) (ecstypes.Containers task) = Ret (Some c) /\
  checkTaskSucceeded goLoopVariable t task
  = match ecstypes.ExitCode c with
    | None => Ret (1, false, Some (errors_New "can not read exit code"))
    | Some code => if code =? 0 then Ret (0, true, None) else Ret (code, false, None)
    end.
Proof.
  intros E Hn Hc Ha. split.
  - rewrite E in *. now apply lookupTarget_last_match.
  - now apply (checkTaskSucceeded_last_match t task before after c).
Qed.

Lemma last_container_of_the_name_decides_witness :
  Exists (hasName (Container sampleTask)) [container "app" "STOPPED" (Some 0)] /\
  Forall named (ecstypes.Containers duplicateNames) /\
  hasName (Container sampleTask) (container "app" "STOPPED" (Some 7)) /\
  Forall (fun c' => ~ hasName (Container sampleTask) c')
    [container "sidecar" "STOPPED" (Some 0)] /\
  lookupTarget goLoopVariable (Container sampleTask) (ecstypes.Containers duplicateNames)
  = Ret (Some (container "app" "STOPPED" (Some 7))) /\
  checkTaskSucceeded goLoopVariable sampleTask duplicateNames = Ret (7, false, None).
Proof.
  assert (Hn : Forall named (ecstypes.Containers duplicateNames))
    by (repeat constructor; discriminate).
  assert (Ha : Forall (fun c' => ~ hasName (Container sampleTask) c')
                 [container "sidecar" "STOPPED" (Some 0)])
    by (repeat constructor; discriminate).
  split; [left; reflexivity|]. split; [exact Hn|]. split; [reflexivity|].
  split; [exact Ha|].
  exact (last_container_of_the_name_decides sampleTask duplicateNames
           [container "app" "STOPPED" (Some 0)]
           [container "sidecar" "STOPPED" (Some 0)]
           (container "app" "STOPPED" (Some 7))
           eq_refl Hn eq_refl Ha).
Defined.

(** Were the loop variable shared by all iterations (Go before 1.22), the
    same lookup would read the last container of the sequence, of whatever
    name, as soon as some container bears the target name. *)
Lemma shared_loop_variable_reads_last_container (t : Task) (task : ecstypes.Task)
    (containers : list ecstypes.Container) (x : ecstypes.Container) :
  ecstypes.Containers task = (containers ++ [x])%list ->
  Forall named (ecstypes.Containers task) ->
  Exists (hasName (Container t)) (ecstypes.Containers task) ->
  lookupTarget PerLoop (Container t) (ecstypes.Containers task) = Ret (Some x).
Proof.
  intros E Hn He. rewrite E in *. now apply lookupTarget_per_loop_last_element.
Qed.

Example shared_loop_variable_on_duplicate_names :
  checkTaskSucceeded PerLoop sampleTask duplicateNames = Ret (0, true, None) /\
  checkTaskSucceeded PerIteration sampleTask duplicateNames = Ret (7, false, None).
Proof. split; reflexivity. Qed.

(** C10.  In every run each fetch comes right after a wait on the
    five-second timer, the first fetch included; so when the deadline is
    what ends the first wait, [WaitTask] returns the timeout result having
    made no fetch at all, whatever the service would have answered. *)
Theorem every_fetch_follows_a_wait (sem : loopVariable) (t : Task)
    (handle : ecstypes.Task) (arn : string) :
  ecstypes.TaskArn handle = Some arn ->
  pollInterval = 5 * 1000000000 /\
  (forall world l1 params l2,
     fst (WaitTask sem t handle world) = (l1 ++ CallDescribeTasks params :: l2)%list ->
     exists l0, l1 = (l0 ++ [Select pollInterval])%list) /\
  (forall (reply : ecs.DescribeTasksOutput + error) (later : list tick),
     WaitTask sem t handle ({| fired := ctxDone deadlineElapsed; answer := reply |} :: later)
     = ([Select pollInterval], Returned (reportedAs TimedOut)) /\
     forall params,
       ~ In (CallDescribeTasks params)
            (fst (WaitTask sem t handle
                    ({| fired := ctxDone deadlineElapsed; answer := reply |} :: later)))).
Proof.
  intros Harn. split; [reflexivity|]. split.
  - intros world l1 params l2 E.
    rewrite (WaitTask_unfold _ _ _ _ _ Harn) in E. cbn [fst] in E.
    exact (polled_fetch_follows_wait _ (waitExitTasks_polled sem t arn world) _ _ _ E).
  - intros reply later.
    assert (WaitTask sem t handle
              ({| fired := ctxDone deadlineElapsed; answer := reply |} :: later)
            = ([Select pollInterval], Returned (reportedAs TimedOut))) as E.
    { rewrite (WaitTask_unfold _ _ _ _ _ Harn). reflexivity. }
    split; [exact E|]. intros params. rewrite E. cbn.
    intros [H|[]]. discriminate.
Qed.

Lemma every_fetch_follows_a_wait_witness :
  ecstypes.TaskArn succeededTask = Some sampleArn /\
  WaitTask goLoopVariable sampleTask succeededTask
    [interrupted deadlineElapsed succeededTask; fetched succeededTask]
  = ([Select pollInterval], Returned (reportedAs TimedOut)).
Proof.
  split; [reflexivity|].
  destruct (every_fetch_follows_a_wait goLoopVariable sampleTask succeededTask sampleArn
              eq_refl) as [_ [_ H]].
  exact (proj1 (H (inl {| ecs.DescribedTasks := [succeededTask] |})
                  [fetched succeededTask])).
Defined.

(** * Further properties of the code *)

(** ** Splitting the identifier lists *)

Lemma strings_Split_comma_nonnil (s : string) : strings_Split_comma s <> [].
Proof.
  destruct s as [|c rest]; cbn; [discriminate|].
  destruct (Ascii.eqb c ","%char); [discriminate|].
  destruct (strings_Split_comma rest); discriminate.
Qed.

Lemma concat_cons_nonnil (sep x : string) (xs : list string) :
  xs <> [] -> String.concat sep (x :: xs) = x ++ sep ++ String.concat sep xs.
Proof. destruct xs; [congruence|reflexivity]. Qed.

(** Joining the pieces with commas gives the string back. *)
Lemma strings_Split_comma_join (s : string) :
  strings_Join_comma (strings_Split_comma s) = s.
Proof.
  unfold strings_Join_comma. induction s as [|c rest IH]; [reflexivity|].
  cbn [strings_Split_comma]. destruct (Ascii.eqb_spec c ","%char) as [->|Hc].
  - rewrite concat_cons_nonnil by apply strings_Split_comma_nonnil.
    rewrite IH. reflexivity.
  - pose proof (strings_Split_comma_nonnil rest) as Hn.
    destruct (strings_Split_comma rest) as [|piece pieces]; [congruence|].
    destruct pieces as [|q qs].
    + cbn in *. now rewrite IH.
    + rewrite concat_cons_nonnil by discriminate.
      rewrite concat_cons_nonnil in IH by discriminate.
      transitivity (String c (piece ++ "," ++ String.concat "," (q :: qs)));
        [reflexivity|]. now rewrite IH.
Qed.

Lemma strings_Split_comma_pieces (s : string) :
  Forall (fun piece => containsComma piece = false) (strings_Split_comma s).
Proof.
  induction s as [|c rest IH]; cbn [strings_Split_comma].
  - repeat constructor.
  - destruct (Ascii.eqb c ","%char) eqn:Ec.
    + constructor; [reflexivity|assumption].
    + destruct (strings_Split_comma rest) as [|piece pieces].
      * repeat constructor. cbn. now rewrite Ec.
      * inversion IH as [|? ? Hp Hps]; subst. constructor; [|assumption].
        cbn. now rewrite Ec.
Qed.

Lemma strings_Split_comma_whole (s : string) :
  containsComma s = false -> strings_Split_comma s = [s].
Proof.
  induction s as [|c rest IH]; cbn; [reflexivity|].
  destruct (Ascii.eqb c ","%char); cbn; [discriminate|].
  intros H. now rewrite (IH H).
Qed.

Lemma strings_Split_comma_first (piece s : string) :
  containsComma piece = false ->
  strings_Split_comma (piece ++ "," ++ s) = piece :: strings_Split_comma s.
Proof.
  induction piece as [|c rest IH]; cbn; [reflexivity|].
  destruct (Ascii.eqb c ","%char); cbn; [discriminate|].
  intros H. change (rest ++ String "," s) with (rest ++ "," ++ s).
  now rewrite (IH H).
Qed.

Lemma strings_Split_comma_of_join (ids : list string) :
  ids <> [] ->
  Forall (fun id => containsComma id = false) ids ->
  strings_Split_comma (strings_Join_comma ids) = ids.
Proof.
  unfold strings_Join_comma. induction ids as [|id rest IH]; [congruence|].
  intros _ H. inversion H as [|? ? Hid Hrest]; subst.
  destruct rest as [|id' rest'].
  - cbn. now apply strings_Split_comma_whole.
  - rewrite concat_cons_nonnil by discriminate.
    rewrite (strings_Split_comma_first _ _ Hid), IH; [reflexivity|discriminate|assumption].
Qed.

(** Each piece the filter keeps is an identifier. *)
Lemma nonEmptyPieces_In (ids piece : string) :
  In piece (nonEmptyPieces ids) -> identifier piece.
Proof.
  unfold nonEmptyPieces, identifier. intros Hin.
  apply filter_In in Hin. destruct Hin as [Hin Hne]. split; [exact Hne|].
  pose proof (strings_Split_comma_pieces ids) as H.
  rewrite Forall_forall in H. now apply H.
Qed.

(** X1.  The identifiers [NewTask] keeps from a comma-separated list are
    never empty and never hold a comma, whatever the string; a string of
    commas only, like the empty string, leaves none. *)
Theorem nonEmptyPieces_are_identifiers (ids : string) :
  Forall identifier (nonEmptyPieces ids) /\
  (forallb (Ascii.eqb ","%char) (list_ascii_of_string ids) = true ->
   nonEmptyPieces ids = []).
Proof.
  split.
  - apply Forall_forall. intros piece. apply nonEmptyPieces_In.
  - unfold nonEmptyPieces. induction ids as [|c rest IH]; [reflexivity|].
    cbn [list_ascii_of_string forallb strings_Split_comma].
    destruct (Ascii.eqb_spec ","%char c) as [<-|Hc]; [|discriminate].
    cbn. exact IH.
Qed.

(** X2.  Round trip: a list of identifiers joined with commas is read back
    by [NewTask] as that very list, in order; the empty list, written as
    the empty string, is read back as no identifier at all. *)
Theorem nonEmptyPieces_of_join (ids : list string) :
  Forall identifier ids ->
  nonEmptyPieces (strings_Join_comma ids) = ids.
Proof.
  intros H. unfold nonEmptyPieces. destruct ids as [|id rest]; [reflexivity|].
  rewrite strings_Split_comma_of_join.
  - apply forallb_filter_id. apply forallb_forall. intros x Hx.
    rewrite Forall_forall in H. exact (proj1 (H x Hx)).
  - discriminate.
  - apply Forall_forall. intros x Hx. rewrite Forall_forall in H. exact (proj2 (H x Hx)).
Qed.

Lemma nonEmptyPieces_of_join_witness :
  Forall identifier ["subnet-1"; "subnet-2"] /\
  nonEmptyPieces "subnet-1,subnet-2" = ["subnet-1"; "subnet-2"].
Proof.
  assert (H : Forall identifier ["subnet-1"; "subnet-2"])
    by (repeat constructor).
  split; [exact H|].
  exact (nonEmptyPieces_of_join ["subnet-1"; "subnet-2"] H).
Defined.

(** ** What [NewTask] builds *)

(** X3.  [NewTask] returns a task exactly when the four required strings
    are non-empty, the configuration loads and the command parses; in every
    other case it returns an error. *)
Theorem NewTask_succeeds_iff
    (newConfig : string -> string -> awsConfig + error)
    (shellwords_Parse : string -> list string + error)
    (cluster container taskDefinitionName command : string)
    (fargate : bool) (subnetIDs securityGroupIDs platformVersion : string)
    (timeout : Z) (format prof reg cpu mem : string) :
  (exists task,
     snd (NewTask newConfig shellwords_Parse cluster container taskDefinitionName command
            fargate subnetIDs securityGroupIDs platformVersion timeout format
            prof reg cpu mem) = inl task) <->
  (cluster <> "" /\ container <> "" /\ taskDefinitionName <> "" /\ command <> "" /\
   (exists cfg, newConfig prof reg = inl cfg) /\
   (exists commands, shellwords_Parse command = inl commands)).
Proof.
  unfold NewTask.
  destruct (String.eqb_spec cluster "");
    [split; [intros [? H]; discriminate H | tauto]|].
  destruct (String.eqb_spec container "");
    [split; [intros [? H]; discriminate H | tauto]|].
  destruct (String.eqb_spec taskDefinitionName "");
    [split; [intros [? H]; discriminate H | tauto]|].
  destruct (String.eqb_spec command "");
    [split; [intros [? H]; discriminate H | tauto]|].
  destruct (newConfig prof reg) as [cfg|err].
  - destruct (shellwords_Parse command) as [commands|err]; cbn.
    + split; [intros _|intros _; eexists; reflexivity].
      repeat split; try assumption; eexists; reflexivity.
    + split; [intros [? H]; discriminate H|].
      intros (_ & _ & _ & _ & _ & [? H]). discriminate H.
  - cbn. split; [intros [? H]; discriminate H|].
    intros (_ & _ & _ & _ & [? H] & _). discriminate H.
Qed.

(** The task [NewTask] returns, field by field. *)
Lemma NewTask_fields
    (newConfig : string -> string -> awsConfig + error)
    (shellwords_Parse : string -> list string + error)
    (cluster container taskDefinitionName command : string)
    (fargate : bool) (subnetIDs securityGroupIDs platformVersion : string)
    (timeout : Z) (format prof reg cpu mem : string) (task : Task) :
  snd (NewTask newConfig shellwords_Parse cluster container taskDefinitionName command
         fargate subnetIDs securityGroupIDs platformVersion timeout format
         prof reg cpu mem) = inl task ->
  cluster <> "" /\ container <> "" /\ taskDefinitionName <> "" /\ command <> "" /\
  Cluster task = cluster /\ Container task = container /\
  TaskDefinitionName task = taskDefinitionName /\
  shellwords_Parse command = inl (Command task) /\
  LaunchType task
  = (if fargate then ecstypes.LaunchTypeFargate else ecstypes.LaunchTypeEc2) /\
  AssignPublicIP task
  = (if fargate then ecstypes.AssignPublicIpEnabled
     else ecstypes.AssignPublicIpDisabled) /\
  Subnets task = nonEmptyPieces subnetIDs /\
  SecurityGroups task = nonEmptyPieces securityGroupIDs /\
  PlatformVersion task = platformVersion /\
  taskSizeCpu task = cpu /\ taskSizeMemory task = mem.
Proof.
  unfold NewTask.
  destruct (String.eqb_spec cluster ""); [discriminate|].
  destruct (String.eqb_spec container ""); [discriminate|].
  destruct (String.eqb_spec taskDefinitionName ""); [discriminate|].
  destruct (String.eqb_spec command ""); [discriminate|].
  destruct (newConfig prof reg) as [cfg|err]; [|discriminate].
  destruct (shellwords_Parse command) as [commands|err]; [|discriminate].
  cbn. intros [= <-]. cbn. repeat split; assumption.
Qed.

(** X4.  Every task that [NewTask] returns has a non-empty cluster,
    container and task definition name, subnets and security groups that
    are identifiers, the parser's tokens as its command, and a public IP
    assigned exactly when its launch type is Fargate. *)
Theorem NewTask_task_is_well_formed
    (newConfig : string -> string -> awsConfig + error)
    (shellwords_Parse : string -> list string + error)
    (cluster container taskDefinitionName command : string)
    (fargate : bool) (subnetIDs securityGroupIDs platformVersion : string)
    (timeout : Z) (format prof reg cpu mem : string) (task : Task) :
  snd (NewTask newConfig shellwords_Parse cluster container taskDefinitionName command
         fargate subnetIDs securityGroupIDs platformVersion timeout format
         prof reg cpu mem) = inl task ->
  Cluster task <> "" /\ Container task <> "" /\ TaskDefinitionName task <> "" /\
  shellwords_Parse command = inl (Command task) /\
  Forall identifier (Subnets task) /\
  Forall identifier (SecurityGroups task) /\
  (AssignPublicIP task = ecstypes.AssignPublicIpEnabled <->
   LaunchType task = ecstypes.LaunchTypeFargate) /\
  (LaunchType task = ecstypes.LaunchTypeFargate <-> fargate = true).
Proof.
  intros H.
  destruct (NewTask_fields _ _ _ _ _ _ _ _ _ _ _ _ _ _ _ _ _ H)
    as (H1 & H2 & H3 & _ & E1 & E2 & E3 & Ep & El & Ea & Es & Eg & _).
  rewrite E1, E2, E3, El, Ea, Es, Eg.
  repeat split; try assumption; try (apply Forall_forall; intros piece; apply nonEmptyPieces_In);
    destruct fargate; congruence.
Qed.

Lemma NewTask_task_is_well_formed_witness :
  snd (NewTask sampleNewConfig sampleParse "prod" "app" "migrate" "rake db:migrate"
         true "subnet-1,,subnet-2" "sg-1," "1.4.0" 0 "" "default" "ap-northeast-1" "" "")
  = inl {| awsECS := ecs_NewFromConfig
                       {| cfgProfile := "default"; cfgRegion := "ap-northeast-1" |};
           awsLogs := cloudwatchlogs_NewFromConfig
                        {| cfgProfile := "default"; cfgRegion := "ap-northeast-1" |};
           Cluster := "prod";
           Container := "app";
           TaskDefinitionName := "migrate";
           taskDefinition :=
             NewTaskDefinition
               (ecs_NewFromConfig
                  {| cfgProfile := "default"; cfgRegion := "ap-northeast-1" |});
           Command := ["rake db:migrate"];
           Timeout := 0;
           LaunchType := ecstypes.LaunchTypeFargate;
           Subnets := ["subnet-1"; "subnet-2"];
           SecurityGroups := ["sg-1"];
           PlatformVersion := "1.4.0";
           AssignPublicIP := ecstypes.AssignPublicIpEnabled;
           profile := "default";
           region := "ap-northeast-1";
           timestampFormat := "";
           taskSizeCpu := "";
           taskSizeMemory := "" |} /\
  Forall identifier ["subnet-1"; "subnet-2"].
Proof.
  split; [reflexivity|].
  exact (proj1 (proj2 (proj2 (proj2 (proj2
    (NewTask_task_is_well_formed sampleNewConfig sampleParse
       "prod" "app" "migrate" "rake db:migrate"
       true "subnet-1,,subnet-2" "sg-1," "1.4.0" 0 "" "default" "ap-northeast-1" "" ""
       _ eq_refl)))))).
Defined.

(** X5.  From the arguments of [NewTask] to the request of [RunTask]: the
    request has a network configuration exactly when the subnet string
    holds an identifier, and then lists the identifiers of both strings in
    order, with a public IP exactly for Fargate; a subnet string of commas
    only, or empty, gives a request without network configuration and
    platform version even for Fargate. *)
Theorem NewTask_then_request
    (newConfig : string -> string -> awsConfig + error)
    (shellwords_Parse : string -> list string + error)
    (cluster container taskDefinitionName command : string)
    (fargate : bool) (subnetIDs securityGroupIDs platformVersion : string)
    (timeout : Z) (format prof reg cpu mem : string) (task : Task)
    (td : ecstypes.TaskDefinition) :
  snd (NewTask newConfig shellwords_Parse cluster container taskDefinitionName command
         fargate subnetIDs securityGroupIDs platformVersion timeout format
         prof reg cpu mem) = inl task ->
  ecs.Cluster (runTaskInput task td) = Some cluster /\
  ecs.LaunchType (runTaskInput task td)
  = (if fargate then ecstypes.LaunchTypeFargate else ecstypes.LaunchTypeEc2) /\
  (nonEmptyPieces subnetIDs = [] ->
     ecs.NetworkConfiguration (runTaskInput task td) = None /\
     ecs.PlatformVersion (runTaskInput task td) = None) /\
  (nonEmptyPieces subnetIDs <> [] ->
     ecs.NetworkConfiguration (runTaskInput task td)
     = Some {| ecstypes.AwsvpcConfiguration :=
                 Some {| ecstypes.AssignPublicIp_ :=
                           if fargate then ecstypes.AssignPublicIpEnabled
                           else ecstypes.AssignPublicIpDisabled;
                         ecstypes.Subnets := nonEmptyPieces subnetIDs;
                         ecstypes.SecurityGroups := nonEmptyPieces securityGroupIDs |} |} /\
     ecs.PlatformVersion (runTaskInput task td)
     = (if nonEmpty platformVersion then Some platformVersion else None)).
Proof.
  intros H.
  destruct (NewTask_fields _ _ _ _ _ _ _ _ _ _ _ _ _ _ _ _ _ H)
    as (_ & _ & _ & _ & E1 & _ & _ & _ & El & Ea & Es & Eg & Ev & _).
  unfold runTaskInput. rewrite Es, Eg, El, Ea, Ev, E1.
  destruct (0 <? List.length (nonEmptyPieces subnetIDs))%nat eqn:Hs.
  - assert (nonEmptyPieces subnetIDs <> []) as Hne
        by (intro E; apply subnets_test in E; congruence).
    destruct (nonEmpty platformVersion); cbn;
      (split; [reflexivity|]; split; [reflexivity|]; split; [contradiction|];
       intros _; split; reflexivity).
  - apply subnets_test in Hs. cbn.
    split; [reflexivity|]. split; [reflexivity|].
    split; [intros _; split; reflexivity|contradiction].
Qed.

Lemma NewTask_then_request_witness :
  nonEmptyPieces ",," = [] /\
  ecs.NetworkConfiguration
    (runTaskInput
       {| awsECS := ecs_NewFromConfig
                      {| cfgProfile := "default"; cfgRegion := "ap-northeast-1" |};
          awsLogs := cloudwatchlogs_NewFromConfig
                       {| cfgProfile := "default"; cfgRegion := "ap-northeast-1" |};
          Cluster := "prod";
          Container := "app";
          TaskDefinitionName := "migrate";
          taskDefinition :=
            NewTaskDefinition
              (ecs_NewFromConfig
                 {| cfgProfile := "default"; cfgRegion := "ap-northeast-1" |});
          Command := ["rake db:migrate"];
          Timeout := 0;
          LaunchType := ecstypes.LaunchTypeFargate;
          Subnets := [];
          SecurityGroups := ["sg-1"];
          PlatformVersion := "1.4.0";
          AssignPublicIP := ecstypes.AssignPublicIpEnabled;
          profile := "default";
          region := "ap-northeast-1";
          timestampFormat := "";
          taskSizeCpu := "";
          taskSizeMemory := "" |}
       sampleDefinition) = None.
Proof.
  split; [reflexivity|].
  destruct (NewTask_then_request sampleNewConfig sampleParse
              "prod" "app" "migrate" "rake db:migrate"
              true ",," "sg-1" "1.4.0" 0 "" "default" "ap-northeast-1" "" ""
              _ sampleDefinition eq_refl) as (_ & _ & H & _).
  exact (proj1 (H eq_refl)).
Defined.

(** ** What [RunTask] sends and returns *)

(** X6.  [RunTask] returns a task exactly when the call succeeds with no
    failure entry and exactly one task, and then it is that task; a failure
    entry prevails over any tasks that come with it. *)
Theorem RunTask_returns_task_iff
    (api_RunTask : ecs.RunTaskInput -> ecs.RunTaskOutput + error)
    (fmt_tasks : list ecstypes.Task -> string)
    (t : Task) (td : ecstypes.TaskDefinition) (task : ecstypes.Task) :
  snd (RunTask api_RunTask fmt_tasks t td) = Ret (inl task) <->
  exists resp,
    api_RunTask (runTaskInput t td) = inl resp /\
    ecs.Failures resp = [] /\ ecs.Tasks resp = [task].
Proof.
  unfold RunTask, handleRunTaskOutput. cbn [snd].
  destruct (api_RunTask (runTaskInput t td)) as [resp|err].
  - destruct (ecs.Failures resp) as [|failure others] eqn:Ef.
    + destruct (ecs.Tasks resp) as [|task1 [|task2 more]] eqn:Et; split.
      * discriminate.
      * intros (r & [= <-] & _ & H). rewrite Et in H. discriminate.
      * intros [= <-]. exists resp. auto.
      * intros (r & [= <-] & _ & H). rewrite Et in H. congruence.
      * discriminate.
      * intros (r & [= <-] & _ & H). rewrite Et in H. discriminate.
    + split.
      * destruct (ecstypes.Reason failure); cbn; discriminate.
      * intros (r & [= <-] & H & _). rewrite Ef in H. discriminate.
  - split; [discriminate|]. intros (r & H & _). discriminate.
Qed.

(** X7.  Whatever the sizes, subnets and platform version, the request
    names the task's cluster and the definition's ARN, and overrides the
    command of one container only, the target container, with the task's
    command; and [RunTask] calls the service exactly once with that request,
    whatever the answer. *)
Theorem RunTask_overrides_target_only
    (api_RunTask : ecs.RunTaskInput -> ecs.RunTaskOutput + error)
    (fmt_tasks : list ecstypes.Task -> string)
    (t : Task) (td : ecstypes.TaskDefinition) :
  ecs.Cluster (runTaskInput t td) = Some (Cluster t) /\
  ecs.TaskDefinition (runTaskInput t td) = ecstypes.TaskDefinitionArn td /\
  (exists override,
     ecs.Overrides (runTaskInput t td) = Some override /\
     ecstypes.ContainerOverrides override
     = [ {| ecstypes.Command := Command t; ecstypes.Name := Some (Container t) |} ]) /\
  fst (RunTask api_RunTask fmt_tasks t td) = [CallRunTask (runTaskInput t td)].
Proof.
  split; [|split; [|split]].
  - unfold runTaskInput.
    destruct (0 <? List.length (Subnets t))%nat; [destruct (nonEmpty (PlatformVersion t))|];
      reflexivity.
  - unfold runTaskInput.
    destruct (0 <? List.length (Subnets t))%nat; [destruct (nonEmpty (PlatformVersion t))|];
      reflexivity.
  - exists (taskOverride t). split.
    + apply runTaskInput_Overrides.
    + apply runTaskInput_targets_container. exact td.
  - reflexivity.
Qed.

(** ** The verdict of [checkTaskSucceeded] *)

(** Without an error, failure goes with a non-zero code and success
    with 0. *)
Lemma checkTaskSucceeded_no_error (sem : loopVariable) (t : Task)
    (task : ecstypes.Task) (code : Z) (result : bool) :
  checkTaskSucceeded sem t task = Ret (code, result, None) ->
  (result = true /\ code = 0) \/ (result = false /\ code <> 0).
Proof.
  unfold checkTaskSucceeded.
  destruct (lookupTarget sem (Container t) (ecstypes.Containers task)) as [[c|]|];
    cbn [bind]; try discriminate.
  destruct (ecstypes.ExitCode c) as [exit|]; [|discriminate].
  destruct (Z.eqb_spec exit 0) as [->|Hne]; cbn [negb]; intros [= <- <-]; auto.
Qed.

(** X8.  The three values [checkTaskSucceeded] returns always agree: no
    error and success go with exit code 0, no error and failure with a
    non-zero exit code, and each of its two errors with failure and the
    code 1. *)
Theorem checkTaskSucceeded_values_agree (sem : loopVariable) (t : Task)
    (task : ecstypes.Task) (code : Z) (result : bool) (err : option error) :
  checkTaskSucceeded sem t task = Ret (code, result, err) ->
  (err = None /\ result = true /\ code = 0) \/
  (err = None /\ result = false /\ code <> 0) \/
  (result = false /\ code = 1 /\
   (err = Some (errors_New "can not find target container") \/
    err = Some (errors_New "can not read exit code"))).
Proof.
  unfold checkTaskSucceeded.
  destruct (lookupTarget sem (Container t) (ecstypes.Containers task)) as [[c|]|];
    cbn [bind]; [| |discriminate].
  - destruct (ecstypes.ExitCode c) as [exit|].
    + destruct (Z.eqb_spec exit 0) as [->|Hne]; cbn [negb]; intros [= <- <- <-].
      * left. auto.
      * right. left. auto.
    + intros [= <- <- <-]. right. right. auto.
  - intros [= <- <- <-]. right. right. auto.
Qed.

Lemma checkTaskSucceeded_values_agree_witness :
  checkTaskSucceeded goLoopVariable sampleTask failedTask = Ret (7, false, None) /\
  7 <> 0.
Proof.
  split; [reflexivity|].
  destruct (checkTaskSucceeded_values_agree goLoopVariable sampleTask failedTask
              7 false None eq_refl)
    as [(_ & _ & H)|[(_ & _ & H)|(_ & H & _)]];
    [discriminate H | exact H | discriminate H].
Defined.

(** A container without a name makes the scan panic, wherever it stands. *)
Lemma scanContainers_unnamed (sem : loopVariable) (name : string)
    (containers cells : list ecstypes.Container) (target : option nat) :
  Exists unnamed containers ->
  scanContainers sem name containers cells target = Panic.
Proof.
  revert cells target. induction containers as [|x rest IH]; intros cells target H.
  - inversion H.
  - cbn [scanContainers]. destruct (assignLoopVariable sem cells x) as [cells' addr].
    destruct (ecstypes.ContainerName x) as [n|] eqn:En; cbn [deref bind].
    + apply IH. inversion H as [? ? Hx|? ? Hr]; subst; [|assumption].
      unfold unnamed in Hx. congruence.
    + reflexivity.
Qed.

(** X9.  A container without a name anywhere among the containers of a
    task makes [checkTaskSucceeded] panic, even when the target container
    is there with its exit code. *)
Theorem checkTaskSucceeded_panics_on_unnamed (sem : loopVariable) (t : Task)
    (task : ecstypes.Task) :
  Exists unnamed (ecstypes.Containers task) ->
  checkTaskSucceeded sem t task = Panic.
Proof.
  intros H. unfold checkTaskSucceeded, lookupTarget.
  now rewrite (scanContainers_unnamed sem _ _ [] None H).
Qed.

Lemma checkTaskSucceeded_panics_on_unnamed_witness :
  Exists unnamed (ecstypes.Containers sidecarUnnamed) /\
  Exists (hasName (Container sampleTask)) (ecstypes.Containers sidecarUnnamed) /\
  checkTaskSucceeded goLoopVariable sampleTask sidecarUnnamed = Panic.
Proof.
  assert (H : Exists unnamed (ecstypes.Containers sidecarUnnamed))
    by (right; left; reflexivity).
  split; [exact H|]. split; [left; reflexivity|].
  exact (checkTaskSucceeded_panics_on_unnamed goLoopVariable sampleTask sidecarUnnamed H).
Defined.

(** X10.  Built with one variable for the whole loop (Go before 1.22), the
    pointer [&c] would end on the last container of the sequence: as soon
    as some container bears the target name, the verdict is read off the
    last container, of whatever name. *)
Theorem shared_loop_variable_verdict (t : Task) (task : ecstypes.Task)
    (containers : list ecstypes.Container) (x : ecstypes.Container) :
  ecstypes.Containers task = (containers ++ [x])%list ->
  Forall named (ecstypes.Containers task) ->
  Exists (hasName (Container t)) (ecstypes.Containers task) ->
  checkTaskSucceeded PerLoop t task
  = match ecstypes.ExitCode x with
    | None => Ret (1, false, Some (errors_New "can not read exit code"))
    | Some code => if code =? 0 then Ret (0, true, None) else Ret (code, false, None)
    end.
Proof.
  intros E Hn He. unfold checkTaskSucceeded.
  rewrite (shared_loop_variable_reads_last_container t task containers x E Hn He).
  cbn [bind]. destruct (ecstypes.ExitCode x) as [code|]; [|reflexivity].
  destruct (code =? 0); reflexivity.
Qed.

Lemma shared_loop_variable_verdict_witness :
  Forall named (ecstypes.Containers sidecarKilled) /\
  Exists (hasName (Container sampleTask)) (ecstypes.Containers sidecarKilled) /\
  checkTaskSucceeded PerLoop sampleTask sidecarKilled = Ret (137, false, None) /\
  checkTaskSucceeded PerIteration sampleTask sidecarKilled = Ret (0, true, None).
Proof.
  assert (Hn : Forall named (ecstypes.Containers sidecarKilled))
    by (repeat constructor; discriminate).
  assert (He : Exists (hasName (Container sampleTask)) (ecstypes.Containers sidecarKilled))
    by (left; reflexivity).
  split; [exact Hn|]. split; [exact He|]. split; [|reflexivity].
  exact (shared_loop_variable_verdict sampleTask sidecarKilled
           [container "app" "STOPPED" (Some 0)]
           (container "sidecar" "STOPPED" (Some 137)) eq_refl Hn He).
Defined.

(** ** Responses with no task or several *)

Lemma stoppedLoop_panics (t : Task) (stopped rest : list ecstypes.Task)
    (task : ecstypes.Task) :
  Forall taskStopped stopped ->
  ecstypes.LastStatus task = None ->
  stoppedLoop t (stopped ++ task :: rest)%list = Panic.
Proof.
  induction stopped as [|s stopped IH]; intros Hs Hn.
  - cbn. unfold checkTaskStopped. rewrite Hn. reflexivity.
  - inversion Hs as [|? ? H1 H2]; subst. cbn [app stoppedLoop].
    apply (checkTaskStopped_stopped t) in H1. rewrite H1. cbn. now apply IH.
Qed.

Lemma succeededLoop_all (sem : loopVariable) (t : Task) (tasks : list ecstypes.Task) :
  Forall (fun task => checkTaskSucceeded sem t task = Ret (0, true, None)) tasks ->
  succeededLoop sem t tasks = Ret (returns None).
Proof.
  induction 1 as [|task rest H _ IH]; [reflexivity|].
  cbn [succeededLoop]. rewrite H. cbn. exact IH.
Qed.

Lemma succeededLoop_first (sem : loopVariable) (t : Task)
    (passed rest : list ecstypes.Task) (task : ecstypes.Task)
    (code : Z) (result : bool) (err : option error) :
  Forall (fun task => checkTaskSucceeded sem t task = Ret (0, true, None)) passed ->
  checkTaskSucceeded sem t task = Ret (code, result, err) ->
  (err = None -> result = false) ->
  succeededLoop sem t (passed ++ task :: rest)%list
  = Ret (match err with
         | Some _ => continueRetry
         | None => returns (Some (exitCodeError code))
         end).
Proof.
  intros Hp Hc Hr. induction Hp as [|p passed H _ IH].
  - cbn [app succeededLoop]. rewrite Hc. cbn [bind].
    destruct err; [reflexivity|]. rewrite (Hr eq_refl). reflexivity.
  - cbn [app succeededLoop]. rewrite H. cbn. exact IH.
Qed.

(** X11.  A response that describes several stopped tasks is judged in
    order: while the tasks succeed the next one is looked at; the first
    task that failed ends the wait with its exit code, and the first whose
    target or exit code is missing sends the loop round, in both cases
    without looking at the tasks after it; if all succeed, and also if the
    response holds no task at all, the wait ends with success. *)
Theorem response_is_judged_in_order (sem : loopVariable) (t : Task)
    (passed rest : list ecstypes.Task) (task : ecstypes.Task)
    (code : Z) (result : bool) (err : option error) :
  Forall taskStopped (passed ++ task :: rest)%list ->
  Forall (fun task => checkTaskSucceeded sem t task = Ret (0, true, None)) passed ->
  evaluate sem t {| ecs.DescribedTasks := passed |} = Ret (returns None) /\
  (checkTaskSucceeded sem t task = Ret (code, result, err) ->
   (err = None -> result = false) ->
   evaluate sem t {| ecs.DescribedTasks := (passed ++ task :: rest)%list |}
   = Ret (match err with
          | Some _ => continueRetry
          | None => returns (Some (exitCodeError code))
          end)).
Proof.
  intros Hs Hp. split.
  - rewrite evaluate_stopped
      by (cbn; apply Forall_app in Hs; tauto).
    now apply succeededLoop_all.
  - intros Hc Hr. rewrite evaluate_stopped by exact Hs.
    now apply succeededLoop_first with (result := result).
Qed.

Lemma response_is_judged_in_order_witness :
  Forall taskStopped ([succeededTask] ++ failedTask :: [sidecarUnnamed])%list /\
  Forall (fun task => checkTaskSucceeded goLoopVariable sampleTask task
                      = Ret (0, true, None)) [succeededTask] /\
  evaluate goLoopVariable sampleTask
    {| ecs.DescribedTasks := [succeededTask; failedTask; sidecarUnnamed] |}
  = Ret (returns (reportedAs (Failed 7))).
Proof.
  assert (Hs : Forall taskStopped ([succeededTask] ++ failedTask :: [sidecarUnnamed])%list)
    by (repeat constructor).
  assert (Hp : Forall (fun task => checkTaskSucceeded goLoopVariable sampleTask task
                                   = Ret (0, true, None)) [succeededTask])
    by (repeat constructor).
  split; [exact Hs|]. split; [exact Hp|].
  destruct (response_is_judged_in_order goLoopVariable sampleTask
              [succeededTask] [sidecarUnnamed] failedTask 7 false None Hs Hp)
    as [_ H].
  exact (H eq_refl (fun _ => eq_refl)).
Defined.

(** ** Runs of the loop *)

Lemma waitExitTasks_panic (sem : loopVariable) (t : Task) (arn : string)
    (w : tick) (later : list tick) :
  snd (iteration sem t arn w) = Panic ->
  waitExitTasks sem t arn (w :: later) = (fst (iteration sem t arn w), Panicked).
Proof.
  intros H. cbn [waitExitTasks].
  destruct (iteration sem t arn w) as [effects v]. cbn in H. subst. reflexivity.
Qed.

(** X12.  When the service describes no task at all (as for an ARN it does
    not know), the wait ends at that response and reports success. *)
Theorem empty_response_reports_success (sem : loopVariable) (t : Task)
    (handle : ecstypes.Task) (arn : string) (pre later : list tick) (w : tick) :
  ecstypes.TaskArn handle = Some arn ->
  Forall (continues sem t arn) pre ->
  fired w = timeAfter ->
  answer w = inl {| ecs.DescribedTasks := [] |} ->
  WaitTask sem t handle (pre ++ w :: later)%list
  = (pollRounds t arn (S (List.length pre)), Returned (reportedAs Succeeded)).
Proof.
  intros Harn Hpre Hf Ha.
  rewrite (WaitTask_unfold _ _ _ _ _ Harn), (waitExitTasks_rounds _ _ _ _ _ Hpre).
  pose proof (iteration_fetched sem t arn w _ Hf Ha) as Hit.
  rewrite (waitExitTasks_return _ _ _ _ _ None) by (rewrite Hit; reflexivity).
  rewrite Hit. cbn [fst snd]. now rewrite pollRounds_succ.
Qed.

Lemma empty_response_reports_success_witness :
  ecstypes.TaskArn runningTask = Some sampleArn /\
  Forall (continues goLoopVariable sampleTask sampleArn) [fetched runningTask] /\
  WaitTask goLoopVariable sampleTask runningTask
    [fetched runningTask;
     {| fired := timeAfter; answer := inl {| ecs.DescribedTasks := [] |} |};
     fetched failedTask]
  = (pollRounds sampleTask sampleArn 2, Returned (reportedAs Succeeded)).
Proof.
  assert (Hpre : Forall (continues goLoopVariable sampleTask sampleArn)
                   [fetched runningTask])
    by (repeat constructor).
  split; [reflexivity|]. split; [exact Hpre|].
  exact (empty_response_reports_success goLoopVariable sampleTask runningTask sampleArn
           [fetched runningTask] [fetched failedTask]
           {| fired := timeAfter; answer := inl {| ecs.DescribedTasks := [] |} |}
           eq_refl Hpre eq_refl eq_refl).
Defined.

(** X13.  The loop has no bound of its own: as long as every response is
    inconclusive it neither returns nor fails, and has fetched once per
    tick. *)
Theorem inconclusive_responses_keep_polling (sem : loopVariable) (t : Task)
    (handle : ecstypes.Task) (arn : string) (world : list tick) :
  ecstypes.TaskArn handle = Some arn ->
  Forall (continues sem t arn) world ->
  WaitTask sem t handle world = (pollRounds t arn (List.length world), Polling).
Proof.
  intros Harn H. rewrite (WaitTask_unfold _ _ _ _ _ Harn).
  rewrite <- (app_nil_r world) at 1 2.
  rewrite (waitExitTasks_rounds _ _ _ _ _ H). cbn. now rewrite app_nil_r.
Qed.

Lemma inconclusive_responses_keep_polling_witness :
  ecstypes.TaskArn runningTask = Some sampleArn /\
  Forall (continues goLoopVariable sampleTask sampleArn)
    [fetched runningTask; fetched deprovisioningTask; fetched exitCodeAbsent] /\
  WaitTask goLoopVariable sampleTask runningTask
    [fetched runningTask; fetched deprovisioningTask; fetched exitCodeAbsent]
  = (pollRounds sampleTask sampleArn 3, Polling).
Proof.
  assert (H : Forall (continues goLoopVariable sampleTask sampleArn)
                [fetched runningTask; fetched deprovisioningTask; fetched exitCodeAbsent])
    by (repeat constructor).
  split; [reflexivity|]. split; [exact H|].
  exact (inconclusive_responses_keep_polling goLoopVariable sampleTask runningTask
           sampleArn _ eq_refl H).
Defined.




Lemma succeededLoop_returns (sem : loopVariable) (t : Task)
    (tasks : list ecstypes.Task) (err : option error) :
  succeededLoop sem t tasks = Ret (returns err) ->
  err = None \/ exists code, code <> 0 /\ err = Some (exitCodeError code).
Proof.
  induction tasks as [|task rest IH]; cbn [succeededLoop].
  - intros [= <-]. now left.
  - destruct (checkTaskSucceeded sem t task) as [[[code result] e]|] eqn:E;
      cbn [bind]; [|discriminate].
    destruct e as [e|]; [discriminate|].
    destruct (checkTaskSucceeded_no_error _ _ _ _ _ E) as [[-> ->]|[-> Hne]]; cbn.
    + exact IH.
    + intros [= <-]. right. exists code. auto.
Qed.

(** X15.  Whatever the service and the context do, a value returned by
    [waitExitTasks] is one of four: nil; the exit-code error of a non-zero
    code (never of 0); the context's own error; or the error of one of the
    fetches. *)
Theorem waitExitTasks_returns_one_of_four (sem : loopVariable) (t : Task)
    (arn : string) (world : list tick) (err : option error) :
  snd (waitExitTasks sem t arn world) = Returned err ->
  err = None \/
  (exists code, code <> 0 /\ err = Some (exitCodeError code)) \/
  (exists r, err = Some (ctx_Err r)) \/
  (exists w e, In w world /\ answer w = inr e /\ err = Some e).
Proof.
  induction world as [|w later IH]; cbn [waitExitTasks].
  - discriminate.
  - unfold iteration. destruct (fired w) as [r|] eqn:Ef.
    + cbn. intros [= <-]. right. right. left. now exists r.
    + destruct (answer w) as [resp|e] eqn:Ea.
      * destruct (evaluate sem t resp) as [[|err']|] eqn:Ev.
        -- destruct (waitExitTasks sem t arn later) as [effects' s]. cbn [snd] in *.
           intros H. destruct (IH H) as [H1|[H2|[H3|(w' & e & Hin & Hw & He)]]]; auto.
           right. right. right. exists w', e. cbn. auto.
        -- cbn. intros [= <-].
           unfold evaluate in Ev.
           destruct (stoppedLoop t (ecs.DescribedTasks resp)) as [[|]|];
             cbn in Ev; try discriminate.
           destruct (succeededLoop_returns _ _ _ _ Ev) as [H|H]; auto.
        -- discriminate.
      * cbn. intros [= <-]. right. right. right. exists w, e. cbn. auto.
Qed.

Lemma waitExitTasks_returns_one_of_four_witness :
  snd (waitExitTasks goLoopVariable sampleTask sampleArn
         [fetched runningTask; fetched failedTask])
  = Returned (Some (exitCodeError 7)) /\
  (Some (exitCodeError 7) = None \/
   (exists code, code <> 0 /\ Some (exitCodeError 7) = Some (exitCodeError code)) \/
   (exists r, Some (exitCodeError 7) = Some (ctx_Err r)) \/
   (exists w e, In w [fetched runningTask; fetched failedTask] /\
                answer w = inr e /\ Some (exitCodeError 7) = Some e)).
Proof.
  split; [reflexivity|].
  exact (waitExitTasks_returns_one_of_four goLoopVariable sampleTask sampleArn
           [fetched runningTask; fetched failedTask] (Some (exitCodeError 7)) eq_refl).
Defined.

(** X16.  [WaitTask] never hands the sentinel [context.DeadlineExceeded]
    to its caller, and reports success exactly when [waitExitTasks]
    returned nil. *)
Theorem WaitTask_never_returns_the_sentinel (sem : loopVariable) (t : Task)
    (handle : ecstypes.Task) (arn : string) (world : list tick) :
  ecstypes.TaskArn handle = Some arn ->
  snd (WaitTask sem t handle world) <> Returned (Some context_DeadlineExceeded) /\
  (snd (WaitTask sem t handle world) = Returned None <->
   snd (waitExitTasks sem t arn world) = Returned None).
Proof.
  intros Harn. rewrite (WaitTask_unfold _ _ _ _ _ Harn). cbn [snd].
  destruct (snd (waitExitTasks sem t arn world)) as [[e|]| |]; cbn.
  - destruct e; cbn; split; try discriminate; split; discriminate.
  - split; [discriminate|tauto].
  - split; [discriminate|tauto].
  - split; [discriminate|tauto].
Qed.

Lemma WaitTask_never_returns_the_sentinel_witness :
  ecstypes.TaskArn runningTask = Some sampleArn /\
  snd (waitExitTasks goLoopVariable sampleTask sampleArn
         [{| fired := timeAfter; answer := inr context_DeadlineExceeded |}])
  = Returned (Some context_DeadlineExceeded) /\
  snd (WaitTask goLoopVariable sampleTask runningTask
         [{| fired := timeAfter; answer := inr context_DeadlineExceeded |}])
  <> Returned (Some context_DeadlineExceeded).
Proof.
  split; [reflexivity|]. split; [reflexivity|].
  exact (proj1 (WaitTask_never_returns_the_sentinel goLoopVariable sampleTask
                  runningTask sampleArn
                  [{| fired := timeAfter; answer := inr context_DeadlineExceeded |}]
                  eq_refl)).
Defined.

Lemma waitExitTasks_effects (sem : loopVariable) (t : Task) (arn : string)
    (world : list tick) :
  Forall (pollingEffect t arn) (fst (waitExitTasks sem t arn world)) /\
  (List.length (fst (waitExitTasks sem t arn world)) <= 2 * List.length world)%nat.
Proof.
  induction world as [|w later [IH1 IH2]]; cbn [waitExitTasks].
  - split; [constructor|cbn; lia].
  - unfold iteration. destruct (fired w).
    + cbn. split; [repeat constructor|lia].
    + destruct (match answer w with
                | inl resp => evaluate sem t resp
                | inr err => Ret (returns (Some err))
                end) as [[|err]|].
      * destruct (waitExitTasks sem t arn later) as [effects' s]. cbn [fst] in *. split.
        -- constructor; [now left|]. constructor; [now right|]. exact IH1.
        -- cbn [app List.length]. cbn [List.length] in *. lia.
      * cbn. split; [|lia]. constructor; [now left|]. constructor; [now right|constructor].
      * cbn. split; [|lia]. constructor; [now left|]. constructor; [now right|constructor].
Qed.

(** X17.  All that [WaitTask] does outside the process is to wait on the
    five-second timer and to ask for the description of its one task in
    the task's cluster: no other call, no other task, no other cluster, and
    at most one wait and one fetch per tick. *)
Theorem WaitTask_only_polls_its_task (sem : loopVariable) (t : Task)
    (handle : ecstypes.Task) (world : list tick) :
  (forall e, In e (fst (WaitTask sem t handle world)) ->
     e = Select pollInterval \/
     exists arn,
       ecstypes.TaskArn handle = Some arn /\
       e = CallDescribeTasks {| ecs.DescribeCluster := Some (Cluster t);
                                ecs.DescribeTasks := [arn] |}) /\
  (List.length (fst (WaitTask sem t handle world)) <= 2 * List.length world)%nat.
Proof.
  unfold WaitTask. destruct (ecstypes.TaskArn handle) as [arn|].
  - destruct (waitExitTasks_effects sem t arn world) as [H1 H2].
    destruct (waitExitTasks sem t arn world) as [effects s]. cbn [fst] in *. split.
    + intros e Hin. rewrite Forall_forall in H1. destruct (H1 e Hin) as [->| ->].
      * now left.
      * right. exists arn. split; reflexivity.
    + exact H2.
  - cbn. split; [tauto|lia].
Qed.

(** X18.  A described task without a lifecycle state, met by the stop
    check before any task that is not stopped, makes the wait panic at
    that response; so does a stopped task with an unnamed container. *)
Theorem absent_fields_panic (sem : loopVariable) (t : Task) (handle : ecstypes.Task)
    (arn : string) (pre later : list tick) (w : tick)
    (stopped rest : list ecstypes.Task) (task : ecstypes.Task) :
  ecstypes.TaskArn handle = Some arn ->
  Forall (continues sem t arn) pre ->
  fired w = timeAfter ->
  Forall taskStopped stopped ->
  (answer w = inl {| ecs.DescribedTasks := (stopped ++ task :: rest)%list |} ->
   ecstypes.LastStatus task = None ->
   WaitTask sem t handle (pre ++ w :: later)%list
   = (pollRounds t arn (S (List.length pre)), Panicked)) /\
  (answer w = inl {| ecs.DescribedTasks := [task] |} ->
   taskStopped task ->
   Exists unnamed (ecstypes.Containers task) ->
   WaitTask sem t handle (pre ++ w :: later)%list
   = (pollRounds t arn (S (List.length pre)), Panicked)).
Proof.
  intros Harn Hpre Hf Hs. split.
  - intros Ha Hn.
    rewrite (WaitTask_unfold _ _ _ _ _ Harn), (waitExitTasks_rounds _ _ _ _ _ Hpre).
    pose proof (iteration_fetched sem t arn w _ Hf Ha) as Hit.
    assert (snd (iteration sem t arn w) = Panic) as Hp.
    { rewrite Hit. cbn [snd]. unfold evaluate. cbn [ecs.DescribedTasks].
      now rewrite (stoppedLoop_panics t stopped rest task Hs Hn). }
    rewrite (waitExitTasks_panic _ _ _ _ _ Hp), Hit. cbn [fst snd].
    now rewrite pollRounds_succ.
  - intros Ha Ht Hu.
    rewrite (WaitTask_unfold _ _ _ _ _ Harn), (waitExitTasks_rounds _ _ _ _ _ Hpre).
    pose proof (iteration_fetched sem t arn w _ Hf Ha) as Hit.
    assert (snd (iteration sem t arn w) = Panic) as Hp.
    { rewrite Hit. cbn [snd].
      rewrite evaluate_stopped by (cbn; constructor; [assumption|constructor]).
      cbn [ecs.DescribedTasks succeededLoop].
      unfold checkTaskSucceeded, lookupTarget.
      now rewrite (scanContainers_unnamed sem _ _ [] None Hu). }
    rewrite (waitExitTasks_panic _ _ _ _ _ Hp), Hit. cbn [fst snd].
    now rewrite pollRounds_succ.
Qed.

Lemma absent_fields_panic_witness :
  ecstypes.TaskArn statusAbsent = Some sampleArn /\
  Forall (continues goLoopVariable sampleTask sampleArn) [fetched runningTask] /\
  ecstypes.LastStatus statusAbsent = None /\
  WaitTask goLoopVariable sampleTask statusAbsent
    [fetched runningTask; fetched statusAbsent; fetched succeededTask]
  = (pollRounds sampleTask sampleArn 2, Panicked).
Proof.
  assert (Hpre : Forall (continues goLoopVariable sampleTask sampleArn)
                   [fetched runningTask])
    by (repeat constructor).
  split; [reflexivity|]. split; [exact Hpre|]. split; [reflexivity|].
  destruct (absent_fields_panic goLoopVariable sampleTask statusAbsent sampleArn
              [fetched runningTask] [fetched succeededTask] (fetched statusAbsent)
              [] [] statusAbsent eq_refl Hpre eq_refl (Forall_nil _)) as [H _].
  exact (H eq_refl eq_refl).
Defined.
